(** * passport-saml-metadata: the metadata reader (src/reader.js)

    A shallow embedding of [MetadataReader] and of the library calls it
    makes, followed by the properties of its getters.

    Conventions of the embedding.
    - A JavaScript string is a [string]; the model covers ASCII text (code
      units below 128), which is what whitespace classes, case mapping and
      lodash's word splitting are defined on here.
    - A [try { .. } catch (e) { .. }] block is a value of [result]: either
      the value returned or the error thrown.  Reading a property of
      [undefined] or [null] throws [TypeError].
    - [this.query] is the XPath engine closed over the parsed document: a
      function from the query text to the node list it selects, or to the
      error the engine throws.  The getters are stated for every such
      function; [XPath.select] below is an engine for the fragment of XPath
      the reader issues, used to run the getters on concrete documents.
    - The getters are stated for every Unicode word splitter of lodash and
      for every numeric value of a string that is not a plain digit
      sequence: both are Variables of the sections.  The splitter itself
      is [lodashWords.unicodeWords], lodash's [reUnicodeWord] run by a
      backtracking matcher. *)

From Stdlib Require Import ZArith Ascii String List Permutation Sorted Lia.
From stdpp Require Import base option list sorting strings gmap.

Local Open Scope Z_scope.

(** ** JavaScript values and errors *)

Module JS.

Inductive exn :=
| TypeError
| EngineError (msg : string).

Inductive result (A : Type) :=
| Ok (a : A)
| Throw (e : exn).
Arguments Ok {A} a.
Arguments Throw {A} e.

#[export] Instance result_ret : MRet result := fun _ a => Ok a.
#[export] Instance result_bind : MBind result := fun _ _ f m =>
  match m with
  | Ok a => f a
  | Throw e => Throw e
  end.

#[export] Instance result_fmap : FMap result := fun _ _ f m =>
  match m with
  | Ok a => Ok (f a)
  | Throw e => Throw e
  end.

(** [try { body } catch (e) { handler e }] *)
Definition try_catch {A} (body : result A) (handler : exn -> result A) : result A :=
  match body with
  | Ok a => Ok a
  | Throw e => handler e
  end.

#[warnings="-register-all"]
Inductive jsval :=
| JSUndefined
| JSNull
| JSString (s : string)
| JSArray (l : list jsval).

(** [o.p] where [o] may be [undefined]: a TypeError when it is. *)
Definition member {A B} (o : option A) (p : A -> B) : result B :=
  match o with
  | Some a => Ok (p a)
  | None => Throw TypeError
  end.

(** [String(v)] as a template literal or a property key applies it to a
    value that is a string or [undefined] ([None]). *)
Definition ToString (v : option string) : string := default "undefined" v.

(** [v[0]] *)
Definition index0 (v : jsval) : result jsval :=
  match v with
  | JSUndefined | JSNull => Throw TypeError
  | JSString (String c _) => Ok (JSString (String c EmptyString))
  | JSString EmptyString => Ok JSUndefined
  | JSArray l => Ok (default JSUndefined (head l))
  end.

(** The class [\s] on ASCII: tab, line feed, vertical tab, form feed,
    carriage return, space. *)
Definition is_space (c : ascii) : bool :=
  match c with
  | "009" | "010" | "011" | "012" | "013" | " " => true
  | _ => false
  end%char.

(** The character class of [/[\r\n\t\s]/gm]. *)
Definition class_rnts (c : ascii) : bool :=
  match c with
  | "013" | "010" | "009" => true
  | _ => is_space c
  end%char.

(** [s.replace(/[cls]/g, '')] *)
Fixpoint replace_class (cls : ascii -> bool) (s : string) : string :=
  match s with
  | EmptyString => EmptyString
  | String c s' => if cls c then replace_class cls s' else String c (replace_class cls s')
  end.

Fixpoint trimStart (s : string) : string :=
  match s with
  | EmptyString => EmptyString
  | String c s' => if is_space c then trimStart s' else s
  end.

Fixpoint trimEnd (s : string) : string :=
  match s with
  | EmptyString => EmptyString
  | String c s' =>
      match trimEnd s' with
      | EmptyString => if is_space c then EmptyString else String c EmptyString
      | t => String c t
      end
  end.

(** [s.trim()] *)
Definition trim (s : string) : string := trimEnd (trimStart s).

(** [v.trim()]: only a string has the method. *)
Definition call_trim (v : jsval) : result jsval :=
  match v with
  | JSString s => Ok (JSString (trim s))
  | _ => Throw TypeError
  end.

(** [v.replace(/[\r\n\t\s]/gm, '')] *)
Definition call_replace_rnts (v : jsval) : result jsval :=
  match v with
  | JSString s => Ok (JSString (replace_class class_rnts s))
  | _ => Throw TypeError
  end.

Definition is_upper (c : ascii) : bool := (("A" <=? c) && (c <=? "Z"))%char.
Definition is_lower (c : ascii) : bool := (("a" <=? c) && (c <=? "z"))%char.
Definition is_digit (c : ascii) : bool := (("0" <=? c) && (c <=? "9"))%char.

Definition lower_char (c : ascii) : ascii :=
  if is_upper c then ascii_of_N (N_of_ascii c + 32) else c.
Definition upper_char (c : ascii) : ascii :=
  if is_lower c then ascii_of_N (N_of_ascii c - 32) else c.

Fixpoint toLowerCase (s : string) : string :=
  match s with
  | EmptyString => EmptyString
  | String c s' => String (lower_char c) (toLowerCase s')
  end.

End JS.
Import JS.

(** ** The DOM nodes the reader touches *)

Record attr := mkAttr { name : string; value : string }.

#[warnings="-register-all"]
Inductive node :=
| ElementNode (namespaceURI localName : string) (attributes : list attr) (childNodes : list node)
| AttrNode (a : attr)
| TextNode (data : string).

(** [n.attributes]; [null] on a node that is not an element, which
    [lodash.find] searches like an empty list. *)
Definition node_attributes (n : node) : list attr :=
  match n with
  | ElementNode _ _ attrs _ => attrs
  | _ => []
  end.

(** [n.nodeValue] *)
Definition nodeValue (n : node) : jsval :=
  match n with
  | ElementNode _ _ _ _ => JSNull
  | AttrNode a => JSString (value a)
  | TextNode d => JSString d
  end.

(** [n.value]: a string on an attribute node, [undefined] ([None]) on the
    others. *)
Definition node_value (n : node) : option string :=
  match n with
  | AttrNode a => Some (value a)
  | _ => None
  end.

(** [n.firstChild] *)
Definition firstChild (n : node) : option node :=
  match n with
  | ElementNode _ _ _ ch => head ch
  | _ => None
  end.

(** [n.data] *)
Definition node_data (n : node) : jsval :=
  match n with
  | TextNode d => JSString d
  | _ => JSUndefined
  end.

(** ** An XPath engine for the queries of the reader

    [xpath.useNamespaces(..)] is a library outside this repository.  The
    engine below evaluates the fragment of XPath 1.0 that the reader's
    queries are written in: a path [//step/step/..] of prefixed element
    names with predicates, ending in an element, an attribute or [text()];
    predicates are built from [@name], string literals, [=], [and], [or]
    and [not(..)].  A query outside the fragment is rejected with an error. *)

Module XPath.

Inductive token :=
| TSlashSlash | TSlash | TAt | TLBracket | TRBracket | TLParen | TRParen | TEquals
| TLiteral (s : string)
| TName (s : string).

Inductive lexstate :=
| LDefault
| LSlash
| LName (acc : string)
| LLiteral (quote : ascii) (acc : string).

Definition is_name_start (c : ascii) : bool :=
  is_upper c || is_lower c || bool_decide (c = "_"%char).

Definition is_name_char (c : ascii) : bool :=
  is_name_start c || is_digit c
  || bool_decide (c = "-"%char) || bool_decide (c = "."%char) || bool_decide (c = ":"%char).

(** XPath white space: space, tab, carriage return, line feed. *)
Definition is_blank (c : ascii) : bool :=
  match c with
  | " " | "009" | "013" | "010" => true
  | _ => false
  end%char.

Definition step_default (c : ascii) : option (list token * lexstate) :=
  if is_blank c then Some ([], LDefault)
  else if is_name_start c then Some ([], LName (String c EmptyString))
  else match c with
       | "/" => Some ([], LSlash)
       | "@" => Some ([TAt], LDefault)
       | "[" => Some ([TLBracket], LDefault)
       | "]" => Some ([TRBracket], LDefault)
       | "(" => Some ([TLParen], LDefault)
       | ")" => Some ([TRParen], LDefault)
       | "=" => Some ([TEquals], LDefault)
       | "034" | "'" => Some ([], LLiteral c EmptyString)
       | _ => None
       end%char.

Definition lex_step (st : lexstate) (c : ascii) : option (list token * lexstate) :=
  match st with
  | LDefault => step_default c
  | LSlash =>
      if bool_decide (c = "/"%char) then Some ([TSlashSlash], LDefault)
      else '(toks, st') ← step_default c; Some (TSlash :: toks, st')
  | LName acc =>
      if is_name_char c then Some ([], LName (String c acc))
      else '(toks, st') ← step_default c; Some (TName (String.rev acc) :: toks, st')
  | LLiteral q acc =>
      if bool_decide (c = q) then Some ([TLiteral (String.rev acc)], LDefault)
      else Some ([], LLiteral q (String c acc))
  end.

Fixpoint lex (st : lexstate) (s : string) : option (list token) :=
  match s with
  | EmptyString =>
      match st with
      | LDefault => Some []
      | LSlash => Some [TSlash]
      | LName acc => Some [TName (String.rev acc)]
      | LLiteral _ _ => None
      end
  | String c s' =>
      '(toks, st') ← lex_step st c;
      rest ← lex st' s';
      Some (toks ++ rest)
  end.

(** Predicate expressions. *)
Inductive expr :=
| EAttr (n : string)
| ELit (s : string)
| EEq (a b : expr)
| EOr (a b : expr)
| EAnd (a b : expr)
| ENot (a : expr).

Inductive level := LvOr | LvAnd | LvEq.

Definition operator (lvl : level) (toks : list token)
  : option ((expr -> expr -> expr) * list token) :=
  match lvl, toks with
  | LvOr, TName "or" :: r => Some (EOr, r)
  | LvAnd, TName "and" :: r => Some (EAnd, r)
  | LvEq, TEquals :: r => Some (EEq, r)
  | _, _ => None
  end.

Definition tighter (lvl : level) : option level :=
  match lvl with
  | LvOr => Some LvAnd
  | LvAnd => Some LvEq
  | LvEq => None
  end.

Fixpoint parse_level (fuel : nat) (lvl : option level) (toks : list token)
  : option (expr * list token) :=
  match fuel with
  | O => None
  | S fuel =>
      match lvl with
      | Some l =>
          '(lhs, r) ← parse_level fuel (tighter l) toks;
          parse_tail fuel l lhs r
      | None =>
          match toks with
          | TAt :: TName n :: r => Some (EAttr n, r)
          | TLiteral s :: r => Some (ELit s, r)
          | TName "not" :: TLParen :: r =>
              '(e, r1) ← parse_level fuel (Some LvOr) r;
              match r1 with
              | TRParen :: r2 => Some (ENot e, r2)
              | _ => None
              end
          | TLParen :: r =>
              '(e, r1) ← parse_level fuel (Some LvOr) r;
              match r1 with
              | TRParen :: r2 => Some (e, r2)
              | _ => None
              end
          | _ => None
          end
      end
  end
with parse_tail (fuel : nat) (lvl : level) (lhs : expr) (toks : list token)
  : option (expr * list token) :=
  match fuel with
  | O => None
  | S fuel =>
      match operator lvl toks with
      | Some (mk, r) =>
          '(rhs, r1) ← parse_level fuel (tighter lvl) r;
          parse_tail fuel lvl (mk lhs rhs) r1
      | None => Some (lhs, toks)
      end
  end.

Record step := mkStep { step_ns : string; step_local : string; step_preds : list expr }.

Inductive target :=
| SelElement
| SelAttr (n : string)
| SelText.

Record path := mkPath { steps : list step; selects : target }.

(** The prefixes given to [xpath.useNamespaces]. *)
Definition namespaces : list (string * string) :=
  [ ("md", "urn:oasis:names:tc:SAML:2.0:metadata");
    ("claim", "urn:oasis:names:tc:SAML:2.0:assertion");
    ("sig", "http://www.w3.org/2000/09/xmldsig#") ].

Fixpoint split_colon (acc : string) (s : string) : option (string * string) :=
  match s with
  | EmptyString => None
  | String c s' =>
      if bool_decide (c = ":"%char) then Some (String.rev acc, s')
      else split_colon (String c acc) s'
  end.

Fixpoint assoc (k : string) (l : list (string * string)) : option string :=
  match l with
  | [] => None
  | (k', v) :: l' => if String.eqb k k' then Some v else assoc k l'
  end.

Definition resolve (qname : string) : option (string * string) :=
  match split_colon EmptyString qname with
  | None => Some (EmptyString, qname)
  | Some (prefix, local) =>
      uri ← assoc prefix namespaces;
      Some (uri, local)
  end.

Fixpoint parse_preds (fuel : nat) (toks : list token) : option (list expr * list token) :=
  match fuel with
  | O => None
  | S fuel' =>
      match toks with
      | TLBracket :: r =>
          '(e, r1) ← parse_level fuel (Some LvOr) r;
          match r1 with
          | TRBracket :: r2 =>
              '(es, r3) ← parse_preds fuel' r2;
              Some (e :: es, r3)
          | _ => None
          end
      | _ => Some ([], toks)
      end
  end.

Fixpoint parse_steps (fuel : nat) (toks : list token) : option path :=
  match fuel with
  | O => None
  | S fuel' =>
      match toks with
      | [TAt; TName n] => Some (mkPath [] (SelAttr n))
      | [TName "text"; TLParen; TRParen] => Some (mkPath [] SelText)
      | TName q :: r =>
          '(ns, local) ← resolve q;
          '(preds, r1) ← parse_preds fuel r;
          match r1 with
          | [] => Some (mkPath [mkStep ns local preds] SelElement)
          | TSlash :: r2 =>
              p ← parse_steps fuel' r2;
              Some (mkPath (mkStep ns local preds :: steps p) (selects p))
          | _ => None
          end
      | _ => None
      end
  end.

Definition parse (q : string) : option path :=
  toks ← lex LDefault q;
  match toks with
  | TSlashSlash :: r => parse_steps (8 * S (length r)) r
  | _ => None
  end.

(** Values of predicate expressions: the string values of a node set of
    attributes, a string, or a boolean. *)
Inductive xval :=
| XNodes (l : list string)
| XStr (s : string)
| XBool (b : bool).

Definition boolean (v : xval) : bool :=
  match v with
  | XNodes l => negb (bool_decide (l = []))
  | XStr s => negb (bool_decide (s = EmptyString))
  | XBool b => b
  end.

Definition equal (v w : xval) : bool :=
  match v, w with
  | XNodes l, XNodes l' => existsb (fun s => existsb (String.eqb s) l') l
  | XNodes l, XStr s | XStr s, XNodes l => existsb (String.eqb s) l
  | XStr s, XStr s' => String.eqb s s'
  | XBool b, o | o, XBool b => Bool.eqb b (boolean o)
  end.

Fixpoint eval (attrs : list attr) (e : expr) : xval :=
  match e with
  | EAttr n => XNodes (value <$> filter (fun a => name a = n) attrs)
  | ELit s => XStr s
  | EEq a b => XBool (equal (eval attrs a) (eval attrs b))
  | EOr a b => XBool (boolean (eval attrs a) || boolean (eval attrs b))
  | EAnd a b => XBool (boolean (eval attrs a) && boolean (eval attrs b))
  | ENot a => XBool (negb (boolean (eval attrs a)))
  end.

Definition step_matches (st : step) (n : node) : bool :=
  match n with
  | ElementNode ns local attrs _ =>
      bool_decide (ns = step_ns st) && bool_decide (local = step_local st)
      && forallb (fun p => boolean (eval attrs p)) (step_preds st)
  | _ => false
  end.

(** [chain] is a node followed by its ancestors, nearest first; [rsteps]
    the element steps of the path, last first. *)
Fixpoint chain_matches (rsteps : list step) (chain : list node) : bool :=
  match rsteps, chain with
  | [], _ => true
  | st :: rs, n :: c => step_matches st n && chain_matches rs c
  | _ :: _, [] => false
  end.

(** Every element and text node with its ancestors, in document order. *)
Fixpoint walk (ancestors : list node) (n : node) : list (node * list node) :=
  (n, ancestors) ::
  match n with
  | ElementNode _ _ _ ch => flat_map (walk (n :: ancestors)) ch
  | _ => []
  end.

Definition select_at (p : path) (entry : node * list node) : list node :=
  let '(n, ancestors) := entry in
  let rsteps := rev (steps p) in
  match selects p with
  | SelElement => if chain_matches rsteps (n :: ancestors) then [n] else []
  | SelAttr a =>
      if chain_matches rsteps (n :: ancestors)
      then AttrNode <$> filter (fun x => name x = a) (node_attributes n)
      else []
  | SelText =>
      match n with
      | TextNode _ => if chain_matches rsteps ancestors then [n] else []
      | _ => []
      end
  end.

Definition select (doc : node) (q : string) : result (list node) :=
  match parse q with
  | Some p => Ok (flat_map (select_at p) (walk [] doc))
  | None => Throw (EngineError q)
  end.

End XPath.

(** ** lodash: [find], [sortBy], [camelCase] *)

Module lodash.

(** [find(collection, predicate)]: the first element the predicate holds
    of, [undefined] ([None]) when there is none. *)
Fixpoint find {A} (predicate : A -> bool) (collection : list A) : option A :=
  match collection with
  | [] => None
  | x :: rest => if predicate x then Some x else find predicate rest
  end.

(** The predicates lodash builds from the shorthands [{ name: n }] and
    [{ value: v }]. *)
Definition matches_name (n : string) (a : attr) : bool := bool_decide (name a = n).
Definition matches_value (v : string) (a : attr) : bool := bool_decide (value a = v).

(** What an iteratee of the reader returns: the number [0] or a string. *)
Inductive criterion :=
| Zero
| Raw (s : string).

Fixpoint all_chars (p : ascii -> bool) (s : string) : bool :=
  match s with
  | EmptyString => true
  | String c s' => p c && all_chars p s'
  end.

Section SortBy.

(** How [Number(s)] compares with [0] for a string that is not a plain
    digit sequence; [None] when [Number(s)] is [NaN]. *)
Variable number_sign : string -> option comparison.

(** [Number(s)] compared with [0]. *)
Definition compare_zero (s : string) : option comparison :=
  match s with
  | EmptyString => Some Eq
  | _ =>
      if all_chars is_digit s
      then Some (if all_chars (fun c => bool_decide (c = "0"%char)) s then Eq else Gt)
      else number_sign s
  end.

(** [v < o] *)
Definition js_lt (v o : criterion) : bool :=
  match v, o with
  | Raw a, Raw b => String.ltb a b
  | Zero, Zero => false
  | Zero, Raw s => bool_decide (compare_zero s = Some Gt)
  | Raw s, Zero => bool_decide (compare_zero s = Some Lt)
  end.

(** [v > o] *)
Definition js_gt (v o : criterion) : bool := js_lt o v.

(** [v !== o] *)
Definition strict_ne (v o : criterion) : bool :=
  match v, o with
  | Zero, Zero => false
  | Raw a, Raw b => negb (String.eqb a b)
  | _, _ => true
  end.

(** [compareAscending] on defined, non-null, non-symbol values. *)
Definition compareAscending (v o : criterion) : Z :=
  if strict_ne v o then
    if js_gt v o then 1
    else if js_lt v o then -1
    else 0
  else 0.

Record entry (A : Type) := mkEntry { criteria : criterion; index : nat; entry_value : A }.
Arguments mkEntry {A}.
Arguments criteria {A}.
Arguments index {A}.
Arguments entry_value {A}.

(** [compareMultiple] with one criterion in ascending order: ties are
    broken by the position in the collection. *)
Definition compareMultiple {A} (object other : entry A) : Z :=
  let r := compareAscending (criteria object) (criteria other) in
  if r =? 0 then Z.of_nat (index object) - Z.of_nat (index other) else r.

(** [array.sort(comparer)].  ECMAScript fixes the result when the
    comparer is a consistent total order, as [sort_determined] below shows;
    the model sorts by insertion. *)
Fixpoint insert {A} (comparer : A -> A -> Z) (x : A) (l : list A) : list A :=
  match l with
  | [] => [x]
  | y :: l' => if 0 <? comparer x y then y :: insert comparer x l' else x :: l
  end.

Definition sort {A} (comparer : A -> A -> Z) (l : list A) : list A :=
  foldr (insert comparer) [] l.

Definition sortBy {A} (collection : list A) (iteratee : A -> criterion) : list A :=
  entry_value <$>
    sort compareMultiple (imap (fun i v => mkEntry (iteratee v) i v) collection).

End SortBy.

Arguments mkEntry {A}.
Arguments criteria {A}.
Arguments index {A}.
Arguments entry_value {A}.

Section CamelCase.

(** [unicodeWords], the splitter lodash uses when [hasUnicodeWord] holds. *)
Variable unicodeWords : string -> list string.

(** [toString(value)]: the empty string on [undefined]. *)
Definition toString (v : option string) : string := default EmptyString v.

(** [deburr] rewrites Latin-1 and Latin Extended-A letters and removes
    combining marks: nothing on ASCII. *)
Definition deburr (s : string) : string := s.

(** [reApos] on ASCII. *)
Definition is_apos (c : ascii) : bool := bool_decide (c = "'"%char).

Definition is_alpha (c : ascii) : bool := is_upper c || is_lower c.

(** [reHasUnicodeWord.test(s)] for
    [/[a-z][A-Z]|[A-Z]{2}[a-z]|[0-9][a-zA-Z]|[a-zA-Z][0-9]|[^a-zA-Z0-9 ]/] *)
Fixpoint hasUnicodeWord (s : string) : bool :=
  match s with
  | EmptyString => false
  | String c s' =>
      negb (is_alpha c || is_digit c || bool_decide (c = " "%char))
      || match s' with
         | String d s'' =>
             (is_lower c && is_upper d)
             || (is_upper c && is_upper d
                 && match s'' with String e _ => is_lower e | EmptyString => false end)
             || (is_digit c && is_alpha d)
             || (is_alpha c && is_digit d)
         | EmptyString => false
         end
      || hasUnicodeWord s'
  end.

(** The class of [reAsciiWord],
    [[^\x00-\x2f\x3a-\x40\x5b-\x60\x7b-\x7f]]. *)
Definition is_word_char (c : ascii) : bool :=
  is_digit c || is_alpha c || (128 <=? N_of_ascii c)%N.

Fixpoint asciiWords_go (cur : string) (s : string) : list string :=
  match s with
  | EmptyString =>
      match cur with EmptyString => [] | _ => [String.rev cur] end
  | String c s' =>
      if is_word_char c then asciiWords_go (String c cur) s'
      else match cur with
           | EmptyString => asciiWords_go EmptyString s'
           | _ => String.rev cur :: asciiWords_go EmptyString s'
           end
  end.

(** [string.match(reAsciiWord) || []] *)
Definition asciiWords (s : string) : list string := asciiWords_go EmptyString s.

Definition words (s : string) : list string :=
  if hasUnicodeWord s then unicodeWords s else asciiWords s.

Definition upperFirst (s : string) : string :=
  match s with
  | EmptyString => EmptyString
  | String c s' => String (upper_char c) s'
  end.

Definition capitalize (s : string) : string := upperFirst (toLowerCase s).

(** [arrayReduce(words, callback, '')] with the callback of [camelCase];
    [index] is the position of [word]. *)
Fixpoint compound (result : string) (index : nat) (ws : list string) : string :=
  match ws with
  | [] => result
  | word :: rest =>
      let word := toLowerCase word in
      compound (result +:+ (match index with O => word | S _ => capitalize word end))
               (S index) rest
  end.

Definition camelCase (v : option string) : string :=
  compound EmptyString 0 (words (replace_class is_apos (deburr (toString v)))).

End CamelCase.

End lodash.

(** ** Regular expressions, and the word splitter of lodash

    [reUnicodeWord] is matched by backtracking, as ECMAScript prescribes:
    alternatives in order, greedy repetitions, look-aheads tried with the
    rest of the pattern left aside.  Code units above 255 are outside the
    texts of the model, so the classes are the ranges of the lodash source
    up to [\xff]. *)

Module RegExp.

Inductive regex :=
| Class (p : ascii -> bool)
| Literal (s : string)
| Empty
| Seq (a b : regex)
| Alt (a b : regex)
| Star (a : regex)
| Ahead (a : regex)
| NotAhead (a : regex)
| Boundary
| AtEnd.

(** [a?] and [a+], both greedy. *)
Definition Opt (a : regex) : regex := Alt a Empty.
Definition Plus (a : regex) : regex := Seq a (Star a).

Fixpoint alternatives (l : list regex) : regex :=
  match l with
  | [] => Class (fun _ => false)
  | [a] => a
  | a :: rest => Alt a (alternatives rest)
  end.

(** [\w] *)
Definition is_word (c : ascii) : bool :=
  is_upper c || is_lower c || is_digit c || bool_decide (c = "_"%char).

Definition word_at (c : option ascii) : bool :=
  match c with
  | Some c => is_word c
  | None => false
  end.

Definition first (s : string) : option ascii :=
  match s with
  | EmptyString => None
  | String c _ => Some c
  end.

(** The literal [l] at the head of [s]: the character before the rest,
    and the rest. *)
Fixpoint literally (l : string) (prev : option ascii) (s : string)
  : option (option ascii * string) :=
  match l with
  | EmptyString => Some (prev, s)
  | String c l' =>
      match s with
      | String d s' => if bool_decide (c = d) then literally l' (Some d) s' else None
      | EmptyString => None
      end
  end.

(** [run fuel r prev s k]: match [r] at the head of [s], which follows the
    character [prev], and go on with [k]; the first way that [k] accepts is
    the answer.  A repetition takes a step of [fuel] for every round. *)
Fixpoint run (fuel : nat) (r : regex) (prev : option ascii) (s : string)
    (k : option ascii -> string -> option string) : option string :=
  match fuel with
  | O => None
  | S fuel =>
      match r with
      | Class p =>
          match s with
          | String c s' => if p c then k (Some c) s' else None
          | EmptyString => None
          end
      | Literal l =>
          match literally l prev s with
          | Some (prev', s') => k prev' s'
          | None => None
          end
      | Empty => k prev s
      | Seq a b => run fuel a prev s (fun prev' s' => run fuel b prev' s' k)
      | Alt a b =>
          match run fuel a prev s k with
          | Some rest => Some rest
          | None => run fuel b prev s k
          end
      | Star a =>
          match run fuel a prev s
                  (fun prev' s' =>
                     if (String.length s' =? String.length s)%nat then None
                     else run fuel (Star a) prev' s' k) with
          | Some rest => Some rest
          | None => k prev s
          end
      | Ahead a =>
          match run fuel a prev s (fun _ _ => Some EmptyString) with
          | Some _ => k prev s
          | None => None
          end
      | NotAhead a =>
          match run fuel a prev s (fun _ _ => Some EmptyString) with
          | Some _ => None
          | None => k prev s
          end
      | Boundary => if xorb (word_at prev) (word_at (first s)) then k prev s else None
      | AtEnd =>
          match s with
          | EmptyString => k prev s
          | String _ _ => None
          end
      end
  end.

(** The match of [r] at the head of [s], if there is one: what is left
    of [s] after it. *)
Definition exec (r : regex) (prev : option ascii) (s : string) : option string :=
  run (64 + String.length s) r prev s (fun _ rest => Some rest).

Fixpoint take (n : nat) (s : string) : string :=
  match n, s with
  | S n', String c s' => String c (take n' s')
  | _, _ => EmptyString
  end.

Fixpoint last (prev : option ascii) (s : string) : option ascii :=
  match s with
  | EmptyString => prev
  | String c s' => last (Some c) s'
  end.

(** [s.match(r)] for a pattern [r] with the flag [g] that matches no
    empty text: the matches from left to right. *)
Fixpoint matches (fuel : nat) (r : regex) (prev : option ascii) (s : string) : list string :=
  match fuel with
  | O => []
  | S fuel =>
      match s with
      | EmptyString => []
      | String c s' =>
          match exec r prev s with
          | Some rest =>
              let n := (String.length s - String.length rest)%nat in
              match n with
              | O => matches fuel r (Some c) s'
              | S _ => take n s :: matches fuel r (last prev (take n s)) rest
              end
          | None => matches fuel r (Some c) s'
          end
      end
  end.

End RegExp.

Module lodashWords.

Import RegExp.

Definition between (lo hi : N) (c : ascii) : bool :=
  ((lo <=? N_of_ascii c) && (N_of_ascii c <=? hi))%N.

(** [rsUpperRange], [rsLowerRange] *)
Definition upper (c : ascii) : bool :=
  between 65 90 c || between 192 214 c || between 216 222 c.
Definition lower (c : ascii) : bool :=
  between 97 122 c || between 223 246 c || between 248 255 c.

(** [rsMathOpRange], [rsNonCharRange], and [rsSpaceRange] up to [\xff] *)
Definition mathOp (c : ascii) : bool :=
  bool_decide (N_of_ascii c = 172%N) || bool_decide (N_of_ascii c = 177%N)
  || bool_decide (N_of_ascii c = 215%N) || bool_decide (N_of_ascii c = 247%N).
Definition nonChar (c : ascii) : bool :=
  between 0 47 c || between 58 64 c || between 91 96 c || between 123 191 c.
Definition space (c : ascii) : bool :=
  match c with
  | " " | "009" | "011" | "012" | "160" | "010" | "013" => true
  | _ => false
  end%char.

(** [rsBreakRange] *)
Definition break (c : ascii) : bool := mathOp c || nonChar c || space c.

(** The class of [rsMisc]: the complement of the break, digit, lower and
    upper ranges and of the characters [\d] and [+] of [rsDigits]. *)
Definition misc (c : ascii) : bool :=
  negb (break c || is_digit c || bool_decide (c = "+"%char) || lower c || upper c).

Definition rsApos : regex := Class (fun c => bool_decide (c = "'"%char)).
Definition rsBreak : regex := Class break.
Definition digit : regex := Class is_digit.
Definition rsDigits : regex := Plus digit.
Definition rsLower : regex := Class lower.
Definition rsUpper : regex := Class upper.
Definition rsMisc : regex := Class misc.
Definition rsMiscLower : regex := Alt rsLower rsMisc.
Definition rsMiscUpper : regex := Alt rsUpper rsMisc.

Definition rsOptContrLower : regex :=
  Opt (Seq rsApos
         (alternatives [Literal "d"; Literal "ll"; Literal "m"; Literal "re";
                        Literal "s"; Literal "t"; Literal "ve"])).
Definition rsOptContrUpper : regex :=
  Opt (Seq rsApos
         (alternatives [Literal "D"; Literal "LL"; Literal "M"; Literal "RE";
                        Literal "S"; Literal "T"; Literal "VE"])).

Definition one_two_three (c : ascii) : bool :=
  bool_decide (c = "1"%char) || bool_decide (c = "2"%char) || bool_decide (c = "3"%char).

(** [\d*(?:1st|2nd|3rd|(?![123])\dth)(?=\b|[A-Z_])] *)
Definition rsOrdLower : regex :=
  Seq (Star digit)
    (Seq (alternatives [Literal "1st"; Literal "2nd"; Literal "3rd";
                        Seq (NotAhead (Class one_two_three)) (Seq digit (Literal "th"))])
       (Ahead (Alt Boundary
                 (Class (fun c => is_upper c || bool_decide (c = "_"%char)))))).

(** [\d*(?:1ST|2ND|3RD|(?![123])\dTH)(?=\b|[a-z_])] *)
Definition rsOrdUpper : regex :=
  Seq (Star digit)
    (Seq (alternatives [Literal "1ST"; Literal "2ND"; Literal "3RD";
                        Seq (NotAhead (Class one_two_three)) (Seq digit (Literal "TH"))])
       (Ahead (Alt Boundary
                 (Class (fun c => is_lower c || bool_decide (c = "_"%char)))))).

(** [rsEmoji] starts with a dingbat, a regional indicator or a surrogate
    pair, all above [\xff]. *)
Definition rsEmoji : regex := Class (fun _ => false).

Definition reUnicodeWord : regex :=
  alternatives
    [ Seq (Opt rsUpper)
        (Seq (Plus rsLower)
           (Seq rsOptContrLower (Ahead (alternatives [rsBreak; rsUpper; AtEnd]))));
      Seq (Plus rsMiscUpper)
        (Seq rsOptContrUpper
           (Ahead (alternatives [rsBreak; Seq rsUpper rsMiscLower; AtEnd])));
      Seq (Opt rsUpper) (Seq (Plus rsMiscLower) rsOptContrLower);
      Seq (Plus rsUpper) rsOptContrUpper;
      rsOrdUpper;
      rsOrdLower;
      rsDigits;
      rsEmoji ].

(** [string.match(reUnicodeWord) || []] *)
Definition unicodeWords (s : string) : list string :=
  matches (S (String.length s)) reUnicodeWord None s.

(** [camelCase] of lodash. *)
Definition camelCase (v : option string) : string :=
  lodash.camelCase unicodeWords v.

End lodashWords.

(** ** The reader *)

Record Options := mkOptions { authnRequestBinding : string; throwExceptions : bool }.

Definition defaultOptions : Options :=
  {| authnRequestBinding := "HTTP-Redirect"; throwExceptions := false |}.

(** A constructed reader: the engine closed over the parsed document, and
    the merged options. *)
Record MetadataReader := mkReader {
  select : string -> result (list node);
  options : Options
}.

(** One entry of the object [claimSchema] returns:
    [{ name, description, camelCase: camelized }]. *)
Record claim := mkClaim {
  claim_name : option string;
  description : option string;
  camelized : string
}.

(** The object [claimSchema] builds: its own properties and, once the key
    [__proto__] has been assigned, its prototype. *)
Record claims := mkClaims { own : gmap string claim; proto : option claim }.

Definition no_claims : claims := {| own := ∅; proto := None |}.

(** [claims[key] = c] *)
Definition set_property (o : claims) (key : string) (c : claim) : claims :=
  if bool_decide (key = "__proto__")
  then {| own := own o; proto := Some c |}
  else {| own := <[key := c]> (own o); proto := proto o |}.

(** [array.reduce(callback, init)] with a callback that may throw. *)
Fixpoint reduce {A B} (callback : B -> A -> result B) (l : list A) (init : B) : result B :=
  match l with
  | [] => Ok init
  | x :: rest => acc ← callback init x; reduce callback rest acc
  end.

Definition dquote : string := String "034"%char EmptyString.

Definition q_entityID : string := "//md:EntityDescriptor/@entityID".
Definition q_NameIDFormat : string := "//md:IDPSSODescriptor/md:NameIDFormat/text()".
Definition q_SingleSignOnService : string := "//md:IDPSSODescriptor/md:SingleSignOnService".
Definition q_SingleLogoutService : string := "//md:IDPSSODescriptor/md:SingleLogoutService".
Definition q_encryption : string :=
  "//md:IDPSSODescriptor/md:KeyDescriptor[@use=" +:+ dquote +:+ "encryption" +:+ dquote
  +:+ " or not(@use)]/sig:KeyInfo/sig:X509Data/sig:X509Certificate".
Definition q_signing : string :=
  "//md:IDPSSODescriptor/md:KeyDescriptor[@use=" +:+ dquote +:+ "signing" +:+ dquote
  +:+ " or not(@use)]/sig:KeyInfo/sig:X509Data/sig:X509Certificate".
Definition q_Name : string := "//md:IDPSSODescriptor/claim:Attribute/@Name".

(** The template literal of [claimSchema]. *)
Definition q_FriendlyName (name : option string) : string :=
  "//md:IDPSSODescriptor/claim:Attribute[@Name=" +:+ dquote +:+ ToString name +:+ dquote
  +:+ "]/@FriendlyName".

(** The template literal of the binding match. *)
Definition binding_uri (o : Options) : string :=
  "urn:oasis:names:tc:SAML:2.0:bindings:" +:+ authnRequestBinding o.

Section Reader.

Variable number_sign : string -> option comparison.
Variable unicodeWords : string -> list string.
Variable this : MetadataReader.

(** [this.query]: logs and rethrows what the engine throws. *)
Definition query (q : string) : result (list node) :=
  try_catch (select this q) (fun e => Throw e).

(** The [catch] block of the getters that answer [undefined]. *)
Definition rescue (e : exn) : result jsval :=
  if throwExceptions (options this) then Throw e else Ok JSUndefined.

(** Each getter is its [try] block, named [.._try], under its [catch]. *)
Definition entityID_try : result jsval :=
  found ← query q_entityID;
  member (head found) nodeValue.

Definition entityID : result jsval := try_catch entityID_try rescue.

Definition identifierFormat_try : result jsval :=
  found ← query q_NameIDFormat;
  member (head found) nodeValue.

Definition identifierFormat : result jsval := try_catch identifierFormat_try rescue.

(** The iteratee of both [sortBy] calls. *)
Definition indexCriterion (element : node) : lodash.criterion :=
  match lodash.find (lodash.matches_name "index") (node_attributes element) with
  | Some indexAttribute => lodash.Raw (value indexAttribute)
  | None => lodash.Zero
  end.

(** The predicate of both outer [find] calls: truthy when some attribute
    of the element has the binding URI as its value. *)
Definition hasBinding (element : node) : bool :=
  bool_decide (is_Some (lodash.find (lodash.matches_value (binding_uri (options this)))
                                    (node_attributes element))).

Definition identityProviderUrl_try : result jsval :=
  found ← query q_SingleSignOnService;
  let singleSignOnServiceElements := lodash.sortBy number_sign found indexCriterion in
  let singleSignOnServiceElement :=
    match lodash.find hasBinding singleSignOnServiceElements with
    | Some element => Some element
    | None => head singleSignOnServiceElements
    end in
  attrs ← member singleSignOnServiceElement node_attributes;
  location ← member (lodash.find (lodash.matches_name "Location") attrs) value;
  Ok (JSString location).

Definition identityProviderUrl : result jsval := try_catch identityProviderUrl_try rescue.

Definition logoutUrl_try : result jsval :=
  found ← query q_SingleLogoutService;
  let singleLogoutServiceElements := lodash.sortBy number_sign found indexCriterion in
  let singleLogoutServiceElement :=
    match lodash.find hasBinding singleLogoutServiceElements with
    | Some element => Some element
    | None => head singleLogoutServiceElements
    end in
  attrs ← member singleLogoutServiceElement node_attributes;
  location ← member (lodash.find (lodash.matches_name "Location") attrs) value;
  Ok (JSString location).

Definition logoutUrl : result jsval := try_catch logoutUrl_try rescue.

(** The callback of [map] in the two certificate lists. *)
Definition certificateText (trimNewLines : bool) (n : node) : result jsval :=
  text ← member (firstChild n) node_data;
  if trimNewLines then call_replace_rnts text else Ok text.

Definition encryptionCerts_try (trimNewLines : bool) : result jsval :=
  found ← query q_encryption;
  certs ← mapM (certificateText trimNewLines) found;
  Ok (JSArray certs).

Definition encryptionCerts (trimNewLines : bool) : result jsval :=
  try_catch (encryptionCerts_try trimNewLines) rescue.

Definition encryptionCert_try (trimNewLines : bool) : result jsval :=
  certs ← encryptionCerts trimNewLines;
  first ← index0 certs;
  call_trim first.

Definition encryptionCert (trimNewLines : bool) : result jsval :=
  try_catch (encryptionCert_try trimNewLines) rescue.

Definition signingCerts_try (trimNewLines : bool) : result jsval :=
  found ← query q_signing;
  certs ← mapM (certificateText trimNewLines) found;
  Ok (JSArray certs).

Definition signingCerts (trimNewLines : bool) : result jsval :=
  try_catch (signingCerts_try trimNewLines) rescue.

Definition signingCert_try (trimNewLines : bool) : result jsval :=
  certs ← signingCerts trimNewLines;
  first ← index0 certs;
  call_trim first.

Definition signingCert (trimNewLines : bool) : result jsval :=
  try_catch (signingCert_try trimNewLines) rescue.

(** The inner [try] block of [claimSchema], up to the assignment. *)
Definition describe (n : node) : result claim :=
  let name := node_value n in
  found ← query (q_FriendlyName name);
  description ← member (head found) node_value;
  let camelized := lodash.camelCase unicodeWords description in
  Ok {| claim_name := name; description := description; camelized := camelized |}.

(** The callback of [reduce]. *)
Definition addClaim (acc : claims) (n : node) : result claims :=
  try_catch
    (c ← describe n;
     Ok (set_property acc (ToString (node_value n)) c))
    (fun e => if throwExceptions (options this) then Throw e else Ok acc).

Definition claimSchema_try : result claims :=
  found ← query q_Name;
  reduce addClaim found no_claims.

Definition claimSchema : result claims :=
  try_catch claimSchema_try
    (fun e => if throwExceptions (options this) then Throw e else Ok no_claims).

End Reader.

(** The getters, and what each of them returns. *)
Inductive getter :=
| EntityID
| IdentifierFormat
| IdentityProviderUrl
| LogoutUrl
| EncryptionCerts (trimNewLines : bool)
| EncryptionCert (trimNewLines : bool)
| SigningCerts (trimNewLines : bool)
| SigningCert (trimNewLines : bool)
| ClaimSchema.

Inductive returned :=
| Value (v : jsval)
| Mapping (c : claims).

Section Getters.

Variable number_sign : string -> option comparison.
Variable unicodeWords : string -> list string.

(** The [try] block of a getter. *)
Definition attempt (g : getter) (this : MetadataReader) : result returned :=
  match g with
  | EntityID => Value <$> entityID_try this
  | IdentifierFormat => Value <$> identifierFormat_try this
  | IdentityProviderUrl => Value <$> identityProviderUrl_try number_sign this
  | LogoutUrl => Value <$> logoutUrl_try number_sign this
  | EncryptionCerts b => Value <$> encryptionCerts_try this b
  | EncryptionCert b => Value <$> encryptionCert_try this b
  | SigningCerts b => Value <$> signingCerts_try this b
  | SigningCert b => Value <$> signingCert_try this b
  | ClaimSchema => Mapping <$> claimSchema_try unicodeWords this
  end.

(** The getter itself. *)
Definition call (g : getter) (this : MetadataReader) : result returned :=
  match g with
  | EntityID => Value <$> entityID this
  | IdentifierFormat => Value <$> identifierFormat this
  | IdentityProviderUrl => Value <$> identityProviderUrl number_sign this
  | LogoutUrl => Value <$> logoutUrl number_sign this
  | EncryptionCerts b => Value <$> encryptionCerts this b
  | EncryptionCert b => Value <$> encryptionCert this b
  | SigningCerts b => Value <$> signingCerts this b
  | SigningCert b => Value <$> signingCert this b
  | ClaimSchema => Mapping <$> claimSchema unicodeWords this
  end.

End Getters.

(** The query a getter starts with. *)
Definition first_query (g : getter) : string :=
  match g with
  | EntityID => q_entityID
  | IdentifierFormat => q_NameIDFormat
  | IdentityProviderUrl => q_SingleSignOnService
  | LogoutUrl => q_SingleLogoutService
  | EncryptionCerts _ | EncryptionCert _ => q_encryption
  | SigningCerts _ | SigningCert _ => q_signing
  | ClaimSchema => q_Name
  end.

(** ** Sample documents

    Parsed metadata documents, as trees of [node]; the readers over them
    use [XPath.select]. *)

Definition md : string := "urn:oasis:names:tc:SAML:2.0:metadata".
Definition assertion : string := "urn:oasis:names:tc:SAML:2.0:assertion".
Definition xmldsig : string := "http://www.w3.org/2000/09/xmldsig#".

Definition redirect : string := "urn:oasis:names:tc:SAML:2.0:bindings:HTTP-Redirect".
Definition post : string := "urn:oasis:names:tc:SAML:2.0:bindings:HTTP-POST".

(** [<md:EntityDescriptor entityID=".."><md:IDPSSODescriptor> children
    </md:IDPSSODescriptor></md:EntityDescriptor>] *)
Definition metadata (children : list node) : node :=
  ElementNode md "EntityDescriptor" [mkAttr "entityID" "https://idp.example.com"]
    [ElementNode md "IDPSSODescriptor" [] children].

Definition service (local : string) (attrs : list attr) : node :=
  ElementNode md local attrs [].

Definition claimAttribute (attrs : list attr) : node :=
  ElementNode assertion "Attribute" attrs [].

Definition keyDescriptor (attrs : list attr) (text : string) : node :=
  ElementNode md "KeyDescriptor" attrs
    [ElementNode xmldsig "KeyInfo" []
       [ElementNode xmldsig "X509Data" []
          [ElementNode xmldsig "X509Certificate" [] [TextNode text]]]].

Definition reader_of (doc : node) (o : Options) : MetadataReader :=
  {| select := XPath.select doc; options := o |}.

(** A reader whose metadata did not parse to a document: the engine throws
    on every query. *)
Definition reader_without_document (o : Options) : MetadataReader :=
  {| select := fun q => Throw (EngineError "no document"); options := o |}.

Definition throwing : Options :=
  {| authnRequestBinding := "HTTP-Redirect"; throwExceptions := true |}.

(** The first endpoint is a POST endpoint whose [Location] happens to be
    the redirect binding URI; the second is the redirect endpoint. *)
Definition doc_binding_in_location : node :=
  metadata
    [ service "SingleSignOnService" [mkAttr "Binding" post; mkAttr "Location" redirect];
      service "SingleSignOnService"
        [mkAttr "Binding" redirect; mkAttr "Location" "https://idp.example.com/sso"];
      service "SingleLogoutService" [mkAttr "Binding" post; mkAttr "Location" redirect];
      service "SingleLogoutService"
        [mkAttr "Binding" redirect; mkAttr "Location" "https://idp.example.com/slo"] ].

(** Two redirect endpoints with [index] 2 and 10, in document order. *)
Definition doc_index_2_10 : node :=
  metadata
    [ service "SingleSignOnService"
        [mkAttr "Binding" redirect; mkAttr "Location" "https://idp.example.com/two";
         mkAttr "index" "2"];
      service "SingleSignOnService"
        [mkAttr "Binding" redirect; mkAttr "Location" "https://idp.example.com/ten";
         mkAttr "index" "10"];
      service "SingleLogoutService"
        [mkAttr "Binding" redirect; mkAttr "Location" "https://idp.example.com/out-two";
         mkAttr "index" "2"];
      service "SingleLogoutService"
        [mkAttr "Binding" redirect; mkAttr "Location" "https://idp.example.com/out-ten";
         mkAttr "index" "10"] ].

(** No [SingleSignOnService] at all. *)
Definition doc_no_service : node :=
  metadata [ElementNode md "NameIDFormat" [] [TextNode "urn:oasis:names:tc:SAML:2.0:nameid-format:transient"]].

(** No [EntityDescriptor]. *)
Definition doc_no_entity : node := ElementNode md "EntitiesDescriptor" [] [].

Definition doc_two_claims : node :=
  metadata
    [ claimAttribute [mkAttr "Name" "urn:email"; mkAttr "FriendlyName" "Email Address"];
      claimAttribute [mkAttr "Name" "urn:name"; mkAttr "FriendlyName" "Full Name"] ].

(** The second claim has no [FriendlyName]. *)
Definition doc_claim_without_name : node :=
  metadata
    [ claimAttribute [mkAttr "Name" "urn:email"; mkAttr "FriendlyName" "Email Address"];
      claimAttribute [mkAttr "Name" "urn:nickname"];
      claimAttribute [mkAttr "Name" "urn:name"; mkAttr "FriendlyName" "Full Name"] ].

(** [x" or "1"="1]: with it the template literal yields the query
    [..Attribute[@Name="x" or "1"="1"]/@FriendlyName]. *)
Definition name_closing_the_literal : string :=
  "x" +:+ dquote +:+ " or " +:+ dquote +:+ "1" +:+ dquote +:+ "=" +:+ dquote +:+ "1".

Definition doc_quote_in_name : node :=
  metadata
    [ claimAttribute [mkAttr "Name" name_closing_the_literal;
                      mkAttr "FriendlyName" "Quoted Name"] ].

(** [a"b]: with it the template literal yields [..[@Name="a"b"]/..], which
    is not a path expression. *)
Definition name_breaking_the_query : string := "a" +:+ dquote +:+ "b".

Definition doc_broken_name : node :=
  metadata
    [ claimAttribute [mkAttr "Name" name_breaking_the_query;
                      mkAttr "FriendlyName" "Valid Name"] ].

Definition newline : string := String "010"%char EmptyString.
Definition tab : string := String "009"%char EmptyString.
Definition cr : string := String "013"%char EmptyString.

Definition certificate_blob : string :=
  newline +:+ "  MIIC" +:+ cr +:+ newline +:+ tab +:+ "Qw 8=" +:+ newline +:+ " ".

Definition doc_certificates : node :=
  metadata
    [ keyDescriptor [mkAttr "use" "signing"] certificate_blob;
      keyDescriptor [mkAttr "use" "encryption"] certificate_blob ].

(** An instance of the parts left open: signed digit sequences for
    [Number(s)], and splitting at non-alphanumeric characters. *)
Definition sample_number_sign (s : string) : option comparison :=
  match s with
  | String "-" digits =>
      if lodash.all_chars is_digit digits && negb (bool_decide (digits = EmptyString))
      then Some (if lodash.all_chars (fun c => bool_decide (c = "0"%char)) digits
                 then Eq else Lt)
      else None
  | _ => None
  end.

Definition sample_unicodeWords (s : string) : list string := lodash.asciiWords s.

(** ** Reference formulations *)

(** The algorithm the two endpoint getters repeat, with the query as its
    parameter. *)
Definition serviceLocation (number_sign : string -> option comparison)
    (this : MetadataReader) (q : string) : result jsval :=
  try_catch
    (found ← query this q;
     let sorted := lodash.sortBy number_sign found indexCriterion in
     let chosen :=
       match lodash.find (hasBinding this) sorted with
       | Some element => Some element
       | None => head sorted
       end in
     attrs ← member chosen node_attributes;
     location ← member (lodash.find (lodash.matches_name "Location") attrs) value;
     Ok (JSString location))
    (rescue this).

(** A reader that answers the query for SingleSignOnService elements with
    the SingleLogoutService elements of [this]. *)
Definition logout_as_signon (this : MetadataReader) : MetadataReader :=
  {| select := fun q =>
       if bool_decide (q = q_SingleSignOnService)
       then select this q_SingleLogoutService
       else select this q;
     options := options this |}.

(** What a getter answers when its [catch] block does not rethrow. *)
Definition fallback (g : getter) : returned :=
  match g with
  | ClaimSchema => Mapping no_claims
  | _ => Value JSUndefined
  end.

(** The mapping with the claim of [n] added when it resolves, and left as
    it is when it does not. *)
Definition keepClaim (unicodeWords : string -> list string) (this : MetadataReader)
    (acc : claims) (n : node) : claims :=
  match describe unicodeWords this n with
  | Ok c => set_property acc (ToString (node_value n)) c
  | Throw _ => acc
  end.

Definition resolves (unicodeWords : string -> list string) (this : MetadataReader)
    (n : node) : Prop :=
  exists c, describe unicodeWords this n = Ok c.

(** The text with the white space of [/[\r\n\t\s]/] deleted. *)
Definition strip (t : string) : string := replace_class class_rnts t.

Definition first_char (s : string) : option ascii :=
  match s with
  | EmptyString => None
  | String c _ => Some c
  end.

Fixpoint last_char (s : string) : option ascii :=
  match s with
  | EmptyString => None
  | String c EmptyString => Some c
  | String _ s' => last_char s'
  end.

Definition blank (s : string) : Prop := lodash.all_chars is_space s = true.

(** What the single-certificate getters answer on the texts of the
    certificate elements. *)
Definition first_trimmed (this : MetadataReader) (trimNewLines : bool)
    (texts : list string) : result jsval :=
  match texts with
  | t :: _ => Ok (JSString (trim (if trimNewLines then strip t else t)))
  | [] => rescue this TypeError
  end.

(** The certificate elements [found] have the text nodes [texts] as their
    first children. *)
Definition have_texts (found : list node) (texts : list string) : Prop :=
  Forall2 (fun n t => firstChild n = Some (TextNode t)) found texts.





Fixpoint has_char (c : ascii) (s : string) : bool :=
  match s with
  | EmptyString => false
  | String d s' => bool_decide (c = d) || has_char c s'
  end.

(** The FriendlyName lookup for [name] fails: the engine throws, or no
    node is selected and reading [value] of the first throws. *)
Definition lookup_fails (this : MetadataReader) (name : option string) : Prop :=
  match select this (q_FriendlyName name) with
  | Throw _ | Ok [] => True
  | Ok (_ :: _) => False
  end.

(** An entry of the sort whose criterion is the text of an [index]
    attribute. *)
Definition textual {A} (e : lodash.entry A) : Prop :=
  exists s, lodash.criteria e = lodash.Raw s.

(** ** Two statements of the documentation, as they are worded *)

(** Every getter, [claimSchema] included, answers [undefined] when its
    [try] block throws and [throwExceptions] is false. *)
Definition undefined_on_every_error : Prop :=
  forall number_sign unicodeWords this g e,
    attempt number_sign unicodeWords g this = Throw e ->
    throwExceptions (options this) = false ->
    call number_sign unicodeWords g this = Ok (Value JSUndefined).

(** A double quote in a Name makes the lookup of its FriendlyName fail:
    the claim is missing from the mapping, or [claimSchema] throws. *)
Definition quote_defeats_lookup : Prop :=
  forall unicodeWords this found name,
    select this q_Name = Ok found ->
    AttrNode (mkAttr "Name" name) ∈ found ->
    has_char "034"%char name = true ->
    (throwExceptions (options this) = false ->
     exists m, claimSchema unicodeWords this = Ok m /\ own m !! name = None)
    /\ (throwExceptions (options this) = true ->
        exists e, claimSchema unicodeWords this = Throw e).

(** ** The constructor *)

(** The [options] argument as a caller writes it: each key is given or
    left out. *)
Record overrides := mkOverrides {
  given_authnRequestBinding : option string;
  given_throwExceptions : option bool
}.

(** [merge({}, defaultOptions, options)]: a key of [options] that is left
    out, or [undefined], keeps the default. *)
Definition merge (defaults : Options) (source : overrides) : Options :=
  {| authnRequestBinding :=
       default (authnRequestBinding defaults) (given_authnRequestBinding source);
     throwExceptions :=
       default (throwExceptions defaults) (given_throwExceptions source) |}.

(** [defaultOptions] as the default value of the parameter [options]. *)
Definition defaultOverrides : overrides :=
  {| given_authnRequestBinding := Some (authnRequestBinding defaultOptions);
     given_throwExceptions := Some (throwExceptions defaultOptions) |}.

(** What [new MetadataReader(..)] throws. *)
Inductive construction_error :=
| AssertionError (message : string)
| ParserError (e : exn).

Section Constructor.

Context {Document : Type}.

(** [new DOMParser().parseFromString] and the function
    [xpath.useNamespaces(..)] returns. *)
Variable parseFromString : string -> result Document.
Variable xpath_select : string -> Document -> result (list node).

(** [new MetadataReader(metadata, options)]; [options] is [None] when
    the argument is left out. *)
Definition new_MetadataReader (metadata : jsval) (options : option overrides)
  : construction_error + MetadataReader :=
  match metadata with
  | JSString text =>
      match parseFromString text with
      | Ok doc =>
          inr {| select := fun q => xpath_select q doc;
                 options := merge defaultOptions (default defaultOverrides options) |}
      | Throw e => inl (ParserError e)
      end
  | _ => inl (AssertionError "metadata must be an XML string")
  end.

End Constructor.

(** A parser for the sample readers: the empty text is no document, any
    other text is [doc_two_claims]. *)
Definition sample_parse (text : string) : result node :=
  if bool_decide (text = EmptyString) then Throw (EngineError "invalid doc source")
  else Ok doc_two_claims.

Definition sample_select (q : string) (doc : node) : result (list node) :=
  XPath.select doc q.

(** ** Further reference formulations *)

(** [this] with [throwExceptions] set to [b]. *)
Definition configured (b : bool) (this : MetadataReader) : MetadataReader :=
  {| select := select this;
     options := {| authnRequestBinding := authnRequestBinding (options this);
                   throwExceptions := b |} |}.

(** The element has no [index] attribute. *)
Definition unindexed (element : node) : Prop :=
  lodash.find (lodash.matches_name "index") (node_attributes element) = None.

(** The text of the [Location] attribute of an element, when it has one. *)
Definition location (element : node) : option string :=
  value <$> lodash.find (lodash.matches_name "Location") (node_attributes element).

(** What both endpoint getters answer once [element] is chosen. *)
Definition location_or_failure (this : MetadataReader) (element : node) : result jsval :=
  match location element with
  | Some v => Ok (JSString v)
  | None => rescue this TypeError
  end.

(** The key under which the claim of [n] is stored. *)
Definition claim_key (n : node) : string := ToString (node_value n).

(** The element has no child, so that [firstChild] is [null]. *)
Definition childless (n : node) : Prop := firstChild n = None.

Definition spaceless (s : string) : Prop :=
  lodash.all_chars (fun c => negb (is_space c)) s = true.

(** One certificate element is empty: [<sig:X509Certificate/>]. *)
Definition doc_empty_certificate : node :=
  metadata
    [ keyDescriptor [mkAttr "use" "signing"] "MIIC";
      ElementNode md "KeyDescriptor" [mkAttr "use" "signing"]
        [ElementNode xmldsig "KeyInfo" []
           [ElementNode xmldsig "X509Data" []
              [ElementNode xmldsig "X509Certificate" [] []]]] ].

(** A single endpoint, with the HTTP-POST binding. *)
Definition doc_single_endpoint : node :=
  metadata
    [ service "SingleSignOnService"
        [mkAttr "Binding" post; mkAttr "Location" "https://idp.example.com/post"] ].

(** The entry of a claim holds what its lookup selected first. *)
Definition entry_of_lookup (this : MetadataReader) (k : string) (c : claim) : Prop :=
  ToString (claim_name c) = k
  /\ exists first rest,
       select this (q_FriendlyName (Some k)) = Ok (first :: rest)
       /\ description c = node_value first.

(** The element has an [index] attribute. *)
Definition indexed (element : node) : Prop :=
  exists s, indexCriterion element = lodash.Raw s.

(** Entry [a] stands before entry [b]: its index text is the smaller
    string, or the texts are the same and [a] comes earlier in the
    document. *)
Definition text_before (a b : lodash.entry node) : Prop :=
  exists sa sb,
    lodash.criteria a = lodash.Raw sa /\ lodash.criteria b = lodash.Raw sb
    /\ ((sa ?= sb)%string = Lt \/ (sa = sb /\ (lodash.index a < lodash.index b)%nat)).

(** The entry is the element at position [index] of the selected elements,
    with its criterion. *)
Definition entry_of (found : list node) (e : lodash.entry node) : Prop :=
  found !! lodash.index e = Some (lodash.entry_value e)
  /\ lodash.criteria e = indexCriterion (lodash.entry_value e).

(** ** Phrases: words between delimiters *)









(** * Properties *)

(** ** The [result] monad *)

Lemma fmap_Throw_inv {A B} (f : A -> B) (m : result A) (e : exn) :
  f <$> m = Throw e -> m = Throw e.
Proof. destruct m; simpl; intros H; [discriminate | congruence]. Qed.

Lemma query_select (this : MetadataReader) (q : string) : query this q = select this q.
Proof. unfold query. destruct (select this q); reflexivity. Qed.

Lemma try_catch_rescue (this : MetadataReader) (body : result jsval) (e : exn) :
  body = Throw e ->
  try_catch body (rescue this)
  = if throwExceptions (options this) then Throw e else Ok JSUndefined.
Proof. intros ->. reflexivity. Qed.

(** ** No endpoint at all *)

(** C7. When the document has no SingleSignOnService element, the sorted
    list is empty, reading [attributes] of its first element throws a
    TypeError inside the [try] block, and the getter answers [undefined]
    when [throwExceptions] is false and throws that TypeError when it is
    true. *)
Theorem identityProviderUrl_no_service
    (number_sign : string -> option comparison) (this : MetadataReader) :
  select this q_SingleSignOnService = Ok [] ->
  identityProviderUrl_try number_sign this = Throw TypeError
  /\ identityProviderUrl number_sign this
     = if throwExceptions (options this) then Throw TypeError else Ok JSUndefined.
Proof.
  intros Hq.
  assert (Htry : identityProviderUrl_try number_sign this = Throw TypeError).
  { unfold identityProviderUrl_try. rewrite query_select, Hq. reflexivity. }
  split; [exact Htry |].
  unfold identityProviderUrl. now apply try_catch_rescue.
Qed.

Lemma identityProviderUrl_no_service_witness :
  select (reader_of doc_no_service defaultOptions) q_SingleSignOnService = Ok []
  /\ identityProviderUrl sample_number_sign (reader_of doc_no_service defaultOptions)
     = Ok JSUndefined
  /\ identityProviderUrl sample_number_sign (reader_of doc_no_service throwing)
     = Throw TypeError.
Proof.
  split; [vm_compute; reflexivity |].
  split.
  - apply (identityProviderUrl_no_service sample_number_sign
             (reader_of doc_no_service defaultOptions)).
    vm_compute; reflexivity.
  - apply (identityProviderUrl_no_service sample_number_sign
             (reader_of doc_no_service throwing)).
    vm_compute; reflexivity.
Defined.

(** ** The two endpoint getters *)

(** C8. [logoutUrl] is [identityProviderUrl] with the SingleLogoutService
    elements in the place of the SingleSignOnService elements: both are the
    same function of the element list (same sort by index, same binding
    match with fallback to the first element, same read of [Location] and
    same failure when it is missing). *)
Theorem logoutUrl_is_identityProviderUrl
    (number_sign : string -> option comparison) (this : MetadataReader) :
  logoutUrl number_sign this = identityProviderUrl number_sign (logout_as_signon this)
  /\ identityProviderUrl number_sign this
     = serviceLocation number_sign this q_SingleSignOnService
  /\ logoutUrl number_sign this
     = serviceLocation number_sign this q_SingleLogoutService.
Proof.
  split; [| split; reflexivity].
  unfold logoutUrl, identityProviderUrl, logoutUrl_try, identityProviderUrl_try.
  rewrite !query_select. reflexivity.
Qed.

(** ** The catch blocks *)

Ltac unfold_getters :=
  unfold call, attempt, entityID, identifierFormat, identityProviderUrl, logoutUrl,
    encryptionCert, encryptionCert_try, signingCert, signingCert_try,
    encryptionCerts, signingCerts, claimSchema in *.

Ltac unfold_tries :=
  unfold entityID_try, identifierFormat_try, identityProviderUrl_try, logoutUrl_try,
    encryptionCerts_try, signingCerts_try, claimSchema_try in *.

(** C3, as the code has it.  When the [try] block of a getter throws [e],
    or already its first query does, the getter rethrows [e] unchanged if
    [throwExceptions] is true; if it is false, every getter but
    [claimSchema] answers [undefined], and [claimSchema] answers the empty
    mapping. *)
Theorem fail_soft_contract
    (number_sign : string -> option comparison) (unicodeWords : string -> list string)
    (this : MetadataReader) (g : getter) (e : exn) :
  attempt number_sign unicodeWords g this = Throw e
  \/ select this (first_query g) = Throw e ->
  call number_sign unicodeWords g this
  = if throwExceptions (options this) then Throw e else Ok (fallback g).
Proof.
  intros [H | H].
  - destruct g; unfold attempt in H; apply fmap_Throw_inv in H;
      unfold call, entityID, identifierFormat, identityProviderUrl, logoutUrl,
        encryptionCert, signingCert, encryptionCerts, signingCerts, claimSchema;
      rewrite H; unfold rescue; simpl;
      destruct (throwExceptions (options this)); reflexivity.
  - destruct g; simpl in H; unfold_getters; unfold_tries;
      rewrite ?query_select, H; unfold rescue; simpl;
      destruct (throwExceptions (options this)); reflexivity.
Qed.

Lemma fail_soft_contract_witness :
  call sample_number_sign sample_unicodeWords EntityID (reader_of doc_no_entity defaultOptions)
  = Ok (Value JSUndefined)
  /\ call sample_number_sign sample_unicodeWords EntityID (reader_of doc_no_entity throwing)
     = Throw TypeError
  /\ call sample_number_sign sample_unicodeWords (SigningCert true)
       (reader_without_document throwing)
     = Throw (EngineError "no document").
Proof.
  split; [| split].
  - apply (fail_soft_contract sample_number_sign sample_unicodeWords
             (reader_of doc_no_entity defaultOptions) EntityID TypeError).
    left. vm_compute. reflexivity.
  - apply (fail_soft_contract sample_number_sign sample_unicodeWords
             (reader_of doc_no_entity throwing) EntityID TypeError).
    left. vm_compute. reflexivity.
  - apply (fail_soft_contract sample_number_sign sample_unicodeWords
             (reader_without_document throwing) (SigningCert true)
             (EngineError "no document")).
    right. reflexivity.
Defined.

(** C3, as stated, fails for [claimSchema]: with [throwExceptions] false,
    an enumeration that throws is answered with the empty mapping, and a
    claim whose resolution throws is left out of a mapping that is still
    returned; neither answer is [undefined]. *)
Lemma fail_soft_claimSchema_not_absent :
  throwExceptions (options (reader_without_document defaultOptions)) = false
  /\ attempt sample_number_sign sample_unicodeWords ClaimSchema
       (reader_without_document defaultOptions)
     = Throw (EngineError "no document")
  /\ call sample_number_sign sample_unicodeWords ClaimSchema
       (reader_without_document defaultOptions)
     = Ok (Mapping no_claims)
  /\ call sample_number_sign sample_unicodeWords ClaimSchema
       (reader_without_document defaultOptions)
     <> Ok (Value JSUndefined)
  /\ describe sample_unicodeWords (reader_of doc_claim_without_name defaultOptions)
       (AttrNode (mkAttr "Name" "urn:nickname"))
     = Throw TypeError
  /\ call sample_number_sign sample_unicodeWords ClaimSchema
       (reader_of doc_claim_without_name defaultOptions)
     <> Ok (Value JSUndefined)
  /\ ~ undefined_on_every_error.
Proof.
  repeat split; try reflexivity; try discriminate.
  intros Hclaim.
  specialize (Hclaim sample_number_sign sample_unicodeWords
                (reader_without_document defaultOptions) ClaimSchema
                (EngineError "no document") eq_refl eq_refl).
  discriminate.
Qed.

(** ** The order [array.sort] leaves *)

Section SortFacts.

Context {A : Type} (comparer : A -> A -> Z) (P : A -> Prop).

(** The comparer is a consistent total preorder on the elements [P] holds
    of. *)
Hypothesis comparer_trans :
  forall x y z, P x -> P y -> P z ->
    comparer x y <= 0 -> comparer y z <= 0 -> comparer x z <= 0.
Hypothesis comparer_total :
  forall x y, P x -> P y -> 0 < comparer x y -> comparer y x <= 0.

Lemma insert_perm (x : A) (l : list A) : lodash.insert comparer x l ≡ₚ x :: l.
Proof.
  induction l as [| y l IH]; simpl; [reflexivity |].
  destruct (0 <? comparer x y); [| reflexivity].
  rewrite IH. apply Permutation_swap.
Qed.

Lemma sort_perm (l : list A) : lodash.sort comparer l ≡ₚ l.
Proof.
  induction l as [| x l IH]; simpl; [reflexivity |].
  unfold lodash.sort in *. simpl. rewrite insert_perm. now rewrite IH.
Qed.

Lemma insert_sorted (x : A) (l : list A) :
  P x -> Forall P l ->
  StronglySorted (fun a b => comparer a b <= 0) l ->
  StronglySorted (fun a b => comparer a b <= 0) (lodash.insert comparer x l).
Proof.
  intros Hx HP Hl. induction Hl as [| y l Hl IH Hy]; simpl.
  - repeat constructor.
  - apply Forall_cons in HP as [HPy HPl].
    destruct (0 <? comparer x y) eqn:Hcmp.
    + apply Z.ltb_lt in Hcmp. constructor; [now apply IH |].
      rewrite insert_perm. constructor; [now apply comparer_total | exact Hy].
    + apply Z.ltb_ge in Hcmp. constructor; [now constructor |].
      constructor; [exact Hcmp |].
      rewrite Forall_forall in Hy, HPl. apply Forall_forall. intros z Hz.
      apply comparer_trans with y; auto.
Qed.

Lemma sort_sorted (l : list A) :
  Forall P l -> StronglySorted (fun a b => comparer a b <= 0) (lodash.sort comparer l).
Proof.
  induction 1 as [| x l Hx Hl IH]; [constructor |].
  unfold lodash.sort in *. simpl. apply insert_sorted; [exact Hx | | exact IH].
  fold (lodash.sort comparer l). now rewrite sort_perm.
Qed.

(** Any other sorted arrangement of the same elements is the one [sort]
    returns, when the comparer never ties two of them. *)
Lemma sort_determined (l l' : list A) :
  Forall P l ->
  (forall x y, x ∈ l -> y ∈ l -> comparer x y <= 0 -> comparer y x <= 0 -> x = y) ->
  l' ≡ₚ l ->
  StronglySorted (fun a b => comparer a b <= 0) l' ->
  l' = lodash.sort comparer l.
Proof.
  intros HP Hanti Hperm Hsorted.
  apply (StronglySorted_unique_strong (fun a b => comparer a b <= 0)).
  - intros x y Hx Hy. apply Hanti.
    + now rewrite <- Hperm.
    + now rewrite <- (sort_perm l).
  - exact Hsorted.
  - now apply sort_sorted.
  - now rewrite sort_perm.
Qed.

End SortFacts.

(** ** Endpoints that all carry an index *)

Lemma string_compare_refl (a : string) : (a ?= a)%string = Eq.
Proof.
  induction a as [| c a IH]; simpl; [reflexivity |].
  unfold Ascii.compare. now rewrite N.compare_refl.
Qed.

Lemma string_lt_trans (a b c : string) :
  (a ?= b)%string = Lt -> (b ?= c)%string = Lt -> (a ?= c)%string = Lt.
Proof.
  intros Hab Hbc.
  assert (Hac : String.le a c).
  { transitivity b; unfold String.le, String.leb; [rewrite Hab | rewrite Hbc]; exact I. }
  unfold String.le, String.leb in Hac.
  destruct (a ?= c)%string eqn:Hcmp; [| reflexivity | contradiction].
  apply String.compare_eq_iff in Hcmp. subst c.
  rewrite String.compare_antisym, Hab in Hbc. discriminate.
Qed.

(** Two texts are compared as strings. *)
Lemma compareAscending_text (number_sign : string -> option comparison) (a b : string) :
  lodash.compareAscending number_sign (lodash.Raw a) (lodash.Raw b)
  = match (a ?= b)%string with Eq => 0 | Lt => -1 | Gt => 1 end.
Proof.
  unfold lodash.compareAscending, lodash.js_gt, lodash.js_lt, lodash.strict_ne, String.ltb.
  destruct (String.eqb_spec a b) as [-> | Hne]; simpl.
  - now rewrite string_compare_refl.
  - rewrite (String.compare_antisym a b).
    destruct (b ?= a)%string; reflexivity.
Qed.

Section TextIndices.

Context {A : Type} (number_sign : string -> option comparison).

Lemma compareMultiple_text (a b : lodash.entry A) (sa sb : string) :
  lodash.criteria a = lodash.Raw sa -> lodash.criteria b = lodash.Raw sb ->
  lodash.compareMultiple number_sign a b
  = match (sa ?= sb)%string with
    | Eq => Z.of_nat (lodash.index a) - Z.of_nat (lodash.index b)
    | Lt => -1
    | Gt => 1
    end.
Proof.
  intros Ha Hb. unfold lodash.compareMultiple.
  rewrite Ha, Hb, compareAscending_text.
  destruct (sa ?= sb)%string; reflexivity.
Qed.

Lemma compareMultiple_text_trans (x y z : lodash.entry A) :
  textual x -> textual y -> textual z ->
  lodash.compareMultiple number_sign x y <= 0 ->
  lodash.compareMultiple number_sign y z <= 0 ->
  lodash.compareMultiple number_sign x z <= 0.
Proof.
  intros [sx Hx] [sy Hy] [sz Hz].
  rewrite (compareMultiple_text x y sx sy Hx Hy), (compareMultiple_text y z sy sz Hy Hz),
    (compareMultiple_text x z sx sz Hx Hz).
  destruct (sx ?= sy)%string eqn:Hxy; [| | lia].
  - apply String.compare_eq_iff in Hxy. subst sy.
    destruct (sx ?= sz)%string; lia.
  - destruct (sy ?= sz)%string eqn:Hyz; [| | lia].
    + apply String.compare_eq_iff in Hyz. subst sz. rewrite Hxy. lia.
    + rewrite (string_lt_trans sx sy sz Hxy Hyz). lia.
Qed.

Lemma compareMultiple_text_total (x y : lodash.entry A) :
  textual x -> textual y ->
  0 < lodash.compareMultiple number_sign x y ->
  lodash.compareMultiple number_sign y x <= 0.
Proof.
  intros [sx Hx] [sy Hy].
  rewrite (compareMultiple_text x y sx sy Hx Hy), (compareMultiple_text y x sy sx Hy Hx).
  rewrite (String.compare_antisym sx sy).
  destruct (sy ?= sx)%string; simpl; lia.
Qed.

Lemma compareMultiple_text_tie (x y : lodash.entry A) :
  textual x -> textual y ->
  lodash.compareMultiple number_sign x y <= 0 ->
  lodash.compareMultiple number_sign y x <= 0 ->
  lodash.index x = lodash.index y.
Proof.
  intros [sx Hx] [sy Hy].
  rewrite (compareMultiple_text x y sx sy Hx Hy), (compareMultiple_text y x sy sx Hy Hx).
  rewrite (String.compare_antisym sx sy).
  destruct (sy ?= sx)%string; simpl; lia.
Qed.

End TextIndices.

(** When every endpoint has an [index] attribute, the entries are left in
    ascending order of the index text, entries with the same text in
    document order; and every arrangement in that order is the one the
    model of [array.sort] returns. *)
Lemma sortBy_text_determined (number_sign : string -> option comparison)
    (found : list node) (sorted : list (lodash.entry node)) :
  Forall (fun element => exists s, indexCriterion element = lodash.Raw s) found ->
  sorted ≡ₚ imap (fun i v => lodash.mkEntry (indexCriterion v) i v) found ->
  StronglySorted (fun a b => lodash.compareMultiple number_sign a b <= 0) sorted ->
  lodash.entry_value <$> sorted = lodash.sortBy number_sign found indexCriterion
  /\ StronglySorted (fun a b => lodash.compareMultiple number_sign a b <= 0)
       (lodash.sort (lodash.compareMultiple number_sign)
          (imap (fun i v => lodash.mkEntry (indexCriterion v) i v) found)).
Proof.
  intros Hall Hperm Hsorted.
  set (entries := imap (fun i v => lodash.mkEntry (indexCriterion v) i v) found) in *.
  assert (Htext : Forall textual entries).
  { apply Forall_forall. intros e He.
    apply elem_of_lookup_imap in He as (i & v & -> & Hv).
    rewrite Forall_forall in Hall. apply Hall. now apply list_elem_of_lookup_2 with i. }
  assert (Hsort := sort_sorted (lodash.compareMultiple number_sign) textual
                     (compareMultiple_text_trans number_sign)
                     (compareMultiple_text_total number_sign) entries Htext).
  split; [| exact Hsort].
  unfold lodash.sortBy. fold entries. f_equal.
  apply (sort_determined (lodash.compareMultiple number_sign) textual
           (compareMultiple_text_trans number_sign)
           (compareMultiple_text_total number_sign)); try assumption.
  intros x y Hx Hy Hxy Hyx.
  rewrite Forall_forall in Htext.
  assert (Hidx := compareMultiple_text_tie number_sign x y (Htext x Hx) (Htext y Hy) Hxy Hyx).
  apply elem_of_lookup_imap in Hx as (i & v & -> & Hv).
  apply elem_of_lookup_imap in Hy as (j & w & -> & Hw).
  simpl in Hidx. subst j. congruence.
Qed.

(** The example of the documentation: indices 2, 0, 1 in document order
    are sorted to 0, 1, 2; and an element without index keeps its place
    among the elements with index 0. *)
Example sortBy_2_0_1 (number_sign : string -> option comparison) :
  lodash.sortBy number_sign
    [ service "SingleSignOnService" [mkAttr "Location" "c"; mkAttr "index" "2"];
      service "SingleSignOnService" [mkAttr "Location" "a"; mkAttr "index" "0"];
      service "SingleSignOnService" [mkAttr "Location" "a'"];
      service "SingleSignOnService" [mkAttr "Location" "b"; mkAttr "index" "1"];
      service "SingleSignOnService" [mkAttr "Location" "a''"; mkAttr "index" "0"] ]
    indexCriterion
  = [ service "SingleSignOnService" [mkAttr "Location" "a"; mkAttr "index" "0"];
      service "SingleSignOnService" [mkAttr "Location" "a'"];
      service "SingleSignOnService" [mkAttr "Location" "a''"; mkAttr "index" "0"];
      service "SingleSignOnService" [mkAttr "Location" "b"; mkAttr "index" "1"];
      service "SingleSignOnService" [mkAttr "Location" "c"; mkAttr "index" "2"] ].
Proof. vm_compute. reflexivity. Qed.

(** ** The binding match *)

Lemma find_Some_elem {A} (p : A -> bool) (l : list A) (x : A) :
  lodash.find p l = Some x -> x ∈ l /\ p x = true.
Proof.
  induction l as [| y l IH]; simpl; [discriminate |].
  destruct (p y) eqn:Hy.
  - intros [= <-]. split; [left | exact Hy].
  - intros H. destruct (IH H). split; [now right | assumption].
Qed.

Lemma find_None_all {A} (p : A -> bool) (l : list A) :
  lodash.find p l = None <-> forall x, x ∈ l -> p x = false.
Proof.
  induction l as [| y l IH]; simpl.
  - split; [intros _ x Hx; inversion Hx | reflexivity].
  - destruct (p y) eqn:Hy.
    + split; [discriminate |]. intros H. specialize (H y ltac:(left)). congruence.
    + rewrite IH. split.
      * intros H x Hx. inversion Hx; subst; auto.
      * intros H x Hx. apply H. now right.
Qed.

(** The match holds of an element as soon as any of its attributes has the
    binding URI as its value, whatever the name of that attribute. *)
Lemma hasBinding_any_attribute (this : MetadataReader) (element : node) :
  hasBinding this element = true
  <-> exists a, a ∈ node_attributes element /\ value a = binding_uri (options this).
Proof.
  unfold hasBinding. rewrite bool_decide_eq_true. split.
  - intros [a Ha]. apply find_Some_elem in Ha as [Hin Hv].
    exists a. split; [exact Hin |]. unfold lodash.matches_value in Hv.
    now apply bool_decide_eq_true in Hv.
  - intros (a & Hin & Hv).
    destruct (lodash.find _ _) as [b |] eqn:Hf; [eauto |].
    rewrite find_None_all in Hf. specialize (Hf a Hin).
    unfold lodash.matches_value in Hf. apply bool_decide_eq_false in Hf. contradiction.
Qed.

(** C1, at the failing input.  In [doc_binding_in_location] the first
    endpoint has [Binding] HTTP-POST and a [Location] whose text is the
    HTTP-Redirect binding URI; the second endpoint has [Binding]
    HTTP-Redirect.  With [authnRequestBinding] HTTP-Redirect the match
    holds of the first endpoint, through its [Location], and both getters
    return that [Location] instead of the one of the redirect endpoint. *)
Theorem binding_match_reads_any_attribute (number_sign : string -> option comparison) :
  lodash.find (lodash.matches_name "Binding")
    [mkAttr "Binding" post; mkAttr "Location" redirect]
  = Some (mkAttr "Binding" post)
  /\ post <> binding_uri defaultOptions
  /\ hasBinding (reader_of doc_binding_in_location defaultOptions)
       (service "SingleSignOnService" [mkAttr "Binding" post; mkAttr "Location" redirect])
     = true
  /\ identityProviderUrl number_sign (reader_of doc_binding_in_location defaultOptions)
     = Ok (JSString redirect)
  /\ logoutUrl number_sign (reader_of doc_binding_in_location defaultOptions)
     = Ok (JSString redirect).
Proof.
  split; [reflexivity |].
  split; [discriminate |].
  repeat split; vm_compute; reflexivity.
Qed.

(** ** The order of the endpoints *)

(** C2, at the failing input.  In [doc_index_2_10] the endpoints carry the
    indices 2 and 10, in this order; the sort puts the endpoint with index
    10 first, and both getters return its [Location]. *)
Theorem index_10_sorts_before_index_2 (number_sign : string -> option comparison) :
  select (reader_of doc_index_2_10 defaultOptions) q_SingleSignOnService
  = Ok [ service "SingleSignOnService"
           [mkAttr "Binding" redirect; mkAttr "Location" "https://idp.example.com/two";
            mkAttr "index" "2"];
         service "SingleSignOnService"
           [mkAttr "Binding" redirect; mkAttr "Location" "https://idp.example.com/ten";
            mkAttr "index" "10"] ]
  /\ identityProviderUrl number_sign (reader_of doc_index_2_10 defaultOptions)
     = Ok (JSString "https://idp.example.com/ten")
  /\ logoutUrl number_sign (reader_of doc_index_2_10 defaultOptions)
     = Ok (JSString "https://idp.example.com/out-ten").
Proof. repeat split; vm_compute; reflexivity. Qed.

(** C9.  The criterion of an element with an [index] attribute is the text
    of that attribute, and the number 0 when it has none; two texts are
    compared as strings, so that an element with index 10 is sorted before
    an element with index 2. *)
Theorem index_criterion_is_text (number_sign : string -> option comparison)
    (two ten : node) :
  indexCriterion two = lodash.Raw "2" ->
  indexCriterion ten = lodash.Raw "10" ->
  lodash.sortBy number_sign [two; ten] indexCriterion = [ten; two]
  /\ lodash.sortBy number_sign [ten; two] indexCriterion = [ten; two]
  /\ lodash.compareAscending number_sign (lodash.Raw "10") (lodash.Raw "2") = -1
  /\ (forall ns local before v after children,
        lodash.find (lodash.matches_name "index") before = None ->
        indexCriterion (ElementNode ns local (before ++ mkAttr "index" v :: after) children)
        = lodash.Raw v)
  /\ (forall element,
        lodash.find (lodash.matches_name "index") (node_attributes element) = None ->
        indexCriterion element = lodash.Zero).
Proof.
  intros Htwo Hten.
  split; [| split; [| split; [| split]]].
  - unfold lodash.sortBy, lodash.sort, lodash.compareMultiple. simpl.
    rewrite Htwo, Hten. reflexivity.
  - unfold lodash.sortBy, lodash.sort, lodash.compareMultiple. simpl.
    rewrite Htwo, Hten. reflexivity.
  - reflexivity.
  - intros ns local before v after children Hnone.
    unfold indexCriterion. cbn [node_attributes].
    induction before as [| a before IH]; [reflexivity |].
    simpl in *. destruct (lodash.matches_name "index" a); [discriminate |]. now apply IH.
  - intros element Hnone. unfold indexCriterion. now rewrite Hnone.
Qed.

Lemma index_criterion_is_text_witness :
  lodash.sortBy sample_number_sign
    [ service "SingleSignOnService" [mkAttr "Location" "https://idp.example.com/two";
                                     mkAttr "index" "2"];
      service "SingleSignOnService" [mkAttr "Location" "https://idp.example.com/ten";
                                     mkAttr "index" "10"] ]
    indexCriterion
  = [ service "SingleSignOnService" [mkAttr "Location" "https://idp.example.com/ten";
                                     mkAttr "index" "10"];
      service "SingleSignOnService" [mkAttr "Location" "https://idp.example.com/two";
                                     mkAttr "index" "2"] ].
Proof.
  apply (index_criterion_is_text sample_number_sign
           (service "SingleSignOnService" [mkAttr "Location" "https://idp.example.com/two";
                                           mkAttr "index" "2"])
           (service "SingleSignOnService" [mkAttr "Location" "https://idp.example.com/ten";
                                           mkAttr "index" "10"])).
  - reflexivity.
  - reflexivity.
Defined.

(** ** Certificates *)

Lemma class_rnts_is_space (c : ascii) : class_rnts c = is_space c.
Proof. destruct c as [[] [] [] [] [] [] [] []]; reflexivity. Qed.

Lemma strip_filter (t : string) :
  list_ascii_of_string (strip t)
  = filter (fun c => is_space c = false) (list_ascii_of_string t).
Proof.
  unfold strip. induction t as [| c t IH]; simpl; [reflexivity |].
  rewrite filter_cons, class_rnts_is_space.
  destruct (is_space c) eqn:Hc.
  - rewrite decide_False by discriminate. exact IH.
  - rewrite decide_True by reflexivity. simpl. now rewrite IH.
Qed.

Lemma strip_no_space (t : string) (c : ascii) :
  In c (list_ascii_of_string (strip t)) -> is_space c = false.
Proof.
  rewrite strip_filter. intros Hin.
  apply list_elem_of_In, list_elem_of_filter in Hin. tauto.
Qed.

Lemma append_cons (c : ascii) (l r : string) : String c l +:+ r = String c (l +:+ r).
Proof. reflexivity. Qed.

Lemma append_empty (r : string) : EmptyString +:+ r = r.
Proof. reflexivity. Qed.

Lemma trimStart_split (s : string) :
  exists l, s = l +:+ trimStart s /\ blank l
            /\ forall c, first_char (trimStart s) = Some c -> is_space c = false.
Proof.
  induction s as [| c s (l & Hs & Hl & Hf)]; simpl.
  - exists EmptyString. repeat split. discriminate.
  - destruct (is_space c) eqn:Hc.
    + exists (String c l). rewrite append_cons, <- Hs. repeat split; [| exact Hf].
      unfold blank in *. simpl. now rewrite Hc.
    + exists EmptyString. repeat split. simpl. intros c' [= <-]. exact Hc.
Qed.

Lemma trimEnd_split (s : string) :
  exists r, s = trimEnd s +:+ r /\ blank r
            /\ (forall c, last_char (trimEnd s) = Some c -> is_space c = false)
            /\ (trimEnd s <> EmptyString -> first_char (trimEnd s) = first_char s).
Proof.
  induction s as [| c s (r & Hs & Hr & Hlast & Hfirst)]; simpl.
  - exists EmptyString. repeat split. discriminate.
  - destruct (trimEnd s) as [| d t] eqn:Ht.
    + rewrite append_empty in Hs. subst r.
      destruct (is_space c) eqn:Hc.
      * exists (String c s). rewrite append_empty. repeat split; [| discriminate | tauto].
        unfold blank in *. simpl. now rewrite Hc.
      * exists s. rewrite append_cons, append_empty. repeat split; [exact Hr |].
        intros c' [= <-]. exact Hc.
    + exists r. rewrite append_cons, <- Hs. repeat split; [exact Hr | exact Hlast].
Qed.

Lemma trim_split (s : string) :
  exists l r, s = l +:+ trim s +:+ r /\ blank l /\ blank r
              /\ (forall c, first_char (trim s) = Some c -> is_space c = false)
              /\ (forall c, last_char (trim s) = Some c -> is_space c = false).
Proof.
  destruct (trimStart_split s) as (l & Hs & Hl & Hf).
  destruct (trimEnd_split (trimStart s)) as (r & Ht & Hr & Hlast & Hfirst).
  exists l, r. unfold trim. rewrite <- Ht. repeat split; try assumption.
  intros c Hc. apply Hf. rewrite <- Hfirst; [exact Hc |].
  intros Hempty. rewrite Hempty in Hc. discriminate.
Qed.

Lemma mapM_certificateText (trimNewLines : bool) (found : list node) (texts : list string) :
  have_texts found texts ->
  mapM (certificateText trimNewLines) found
  = Ok ((fun t => JSString (if trimNewLines then strip t else t)) <$> texts).
Proof.
  induction 1 as [| n t found texts Hn _ IH]; [reflexivity |].
  cbn [mapM]. rewrite IH. unfold certificateText. rewrite Hn.
  destruct trimNewLines; reflexivity.
Qed.

(** C5.  On certificate elements whose first children are the text nodes
    [texts]: with [trimNewLines] true the list getters return every text
    with all white space (space, tab, carriage return, line feed, and the
    rest of [\s]) deleted wherever it stands; with [trimNewLines] false
    they return the texts as they are; the single-certificate getters
    return the first entry of that list with leading and trailing white
    space removed, whatever the flag. *)
Theorem certificates_whitespace (this : MetadataReader) (found : list node)
    (texts : list string) :
  have_texts found texts ->
  (select this q_encryption = Ok found ->
     encryptionCerts this true = Ok (JSArray (JSString <$> (strip <$> texts)))
     /\ encryptionCerts this false = Ok (JSArray (JSString <$> texts))
     /\ forall b, encryptionCert this b = first_trimmed this b texts)
  /\ (select this q_signing = Ok found ->
        signingCerts this true = Ok (JSArray (JSString <$> (strip <$> texts)))
        /\ signingCerts this false = Ok (JSArray (JSString <$> texts))
        /\ forall b, signingCert this b = first_trimmed this b texts)
  /\ (forall t,
        list_ascii_of_string (strip t)
        = filter (fun c => is_space c = false) (list_ascii_of_string t))
  /\ Forall (fun c => is_space c = true) [" "; "009"; "013"; "010"]%char
  /\ (forall t, exists l r,
        t = l +:+ trim t +:+ r /\ blank l /\ blank r
        /\ (forall c, first_char (trim t) = Some c -> is_space c = false)
        /\ (forall c, last_char (trim t) = Some c -> is_space c = false)).
Proof.
  intros Htexts.
  assert (Hlist : forall q b (mk : exn -> result jsval),
             select this q = Ok found ->
             try_catch (found ← query this q;
                        certs ← mapM (certificateText b) found;
                        Ok (JSArray certs)) mk
             = Ok (JSArray ((fun t => JSString (if b then strip t else t)) <$> texts))).
  { intros q b mk Hq. rewrite query_select, Hq. simpl.
    rewrite (mapM_certificateText b found texts Htexts). reflexivity. }
  assert (Hfirst : forall b : bool,
             try_catch
               (certs ← Ok (JSArray ((fun t => JSString (if b then strip t else t)) <$> texts));
                first ← index0 certs;
                call_trim first) (rescue this)
             = first_trimmed this b texts).
  { intros b. destruct texts; reflexivity. }
  split; [| split; [| split; [| split]]].
  - intros Hq. split; [| split].
    + unfold encryptionCerts, encryptionCerts_try. rewrite (Hlist q_encryption true (rescue this) Hq).
      now rewrite <- list_fmap_compose.
    + unfold encryptionCerts, encryptionCerts_try. now rewrite (Hlist q_encryption false (rescue this) Hq).
    + intros b. unfold encryptionCert, encryptionCert_try, encryptionCerts, encryptionCerts_try.
      rewrite (Hlist q_encryption b (rescue this) Hq). apply Hfirst.
  - intros Hq. split; [| split].
    + unfold signingCerts, signingCerts_try. rewrite (Hlist q_signing true (rescue this) Hq).
      now rewrite <- list_fmap_compose.
    + unfold signingCerts, signingCerts_try. now rewrite (Hlist q_signing false (rescue this) Hq).
    + intros b. unfold signingCert, signingCert_try, signingCerts, signingCerts_try.
      rewrite (Hlist q_signing b (rescue this) Hq). apply Hfirst.
  - apply strip_filter.
  - repeat constructor.
  - apply trim_split.
Qed.

Lemma certificates_whitespace_witness :
  signingCerts (reader_of doc_certificates defaultOptions) true
  = Ok (JSArray [JSString "MIICQw8="])
  /\ signingCerts (reader_of doc_certificates defaultOptions) false
     = Ok (JSArray [JSString certificate_blob])
  /\ signingCert (reader_of doc_certificates defaultOptions) false
     = Ok (JSString ("MIIC" +:+ cr +:+ newline +:+ tab +:+ "Qw 8="))
  /\ encryptionCert (reader_of doc_certificates defaultOptions) true
     = Ok (JSString "MIICQw8=").
Proof.
  pose proof (certificates_whitespace (reader_of doc_certificates defaultOptions)
                [ElementNode xmldsig "X509Certificate" [] [TextNode certificate_blob]]
                [certificate_blob]
                ltac:(repeat constructor)) as (He & Hs & _).
  specialize (He ltac:(vm_compute; reflexivity)).
  specialize (Hs ltac:(vm_compute; reflexivity)).
  destruct He as (_ & _ & He1). destruct Hs as (Hs1 & Hs2 & Hs3).
  split; [| split; [| split]].
  - rewrite Hs1. vm_compute. reflexivity.
  - rewrite Hs2. reflexivity.
  - rewrite Hs3. vm_compute. reflexivity.
  - rewrite He1. vm_compute. reflexivity.
Defined.

(** ** [claimSchema] *)

Lemma addClaim_Ok unicodeWords this acc n c :
  describe unicodeWords this n = Ok c ->
  addClaim unicodeWords this acc n = Ok (set_property acc (ToString (node_value n)) c).
Proof. unfold addClaim. intros ->. reflexivity. Qed.

Lemma addClaim_skip unicodeWords this acc n e :
  throwExceptions (options this) = false ->
  describe unicodeWords this n = Throw e ->
  addClaim unicodeWords this acc n = Ok acc.
Proof. unfold addClaim. intros Hopt ->. simpl. now rewrite Hopt. Qed.

Lemma addClaim_rethrow unicodeWords this acc n e :
  throwExceptions (options this) = true ->
  describe unicodeWords this n = Throw e ->
  addClaim unicodeWords this acc n = Throw e.
Proof. unfold addClaim. intros Hopt ->. simpl. now rewrite Hopt. Qed.

Lemma addClaim_keepClaim unicodeWords this acc n :
  throwExceptions (options this) = false ->
  addClaim unicodeWords this acc n = Ok (keepClaim unicodeWords this acc n).
Proof.
  intros Hopt. unfold keepClaim.
  destruct (describe unicodeWords this n) as [c | e] eqn:Hd.
  - now apply addClaim_Ok.
  - now apply addClaim_skip with e.
Qed.

Lemma reduce_app {A B} (f : B -> A -> result B) (l1 l2 : list A) (init : B) :
  reduce f (l1 ++ l2) init = (acc ← reduce f l1 init; reduce f l2 acc).
Proof.
  revert init. induction l1 as [| x l1 IH]; intros init; simpl; [reflexivity |].
  destruct (f init x) as [acc | e]; simpl; [apply IH | reflexivity].
Qed.

Lemma reduce_keepClaim unicodeWords this found acc :
  throwExceptions (options this) = false ->
  reduce (addClaim unicodeWords this) found acc
  = Ok (foldl (keepClaim unicodeWords this) acc found).
Proof.
  intros Hopt. revert acc.
  induction found as [| n found IH]; intros acc; simpl; [reflexivity |].
  rewrite addClaim_keepClaim by assumption. simpl. apply IH.
Qed.

Lemma reduce_resolving unicodeWords this found acc :
  Forall (resolves unicodeWords this) found ->
  exists acc', reduce (addClaim unicodeWords this) found acc = Ok acc'.
Proof.
  intros Hall. revert acc.
  induction Hall as [| n found [c Hc] _ IH]; intros acc; simpl; [eauto |].
  rewrite (addClaim_Ok _ _ _ _ _ Hc). simpl. apply IH.
Qed.

Lemma foldl_keepClaim_skip unicodeWords this l1 n l2 acc e :
  describe unicodeWords this n = Throw e ->
  foldl (keepClaim unicodeWords this) acc (l1 ++ n :: l2)
  = foldl (keepClaim unicodeWords this) acc (l1 ++ l2).
Proof.
  intros Hd. rewrite !foldl_app. simpl.
  unfold keepClaim at 2. now rewrite Hd.
Qed.

(** C4.  With [throwExceptions] false, [claimSchema] returns the mapping of
    the claims that resolve: a claim whose FriendlyName lookup throws is
    left out, and the mapping is the one the enumeration without it yields;
    if the enumeration itself throws, the empty mapping is returned.  With
    [throwExceptions] true, the error of the first claim that does not
    resolve is thrown, and no mapping is returned. *)
Theorem claimSchema_partial_failure
    (unicodeWords : string -> list string) (this : MetadataReader) :
  (throwExceptions (options this) = false ->
   forall l1 n l2 e,
     select this q_Name = Ok (l1 ++ n :: l2) ->
     describe unicodeWords this n = Throw e ->
     claimSchema unicodeWords this
     = Ok (foldl (keepClaim unicodeWords this) no_claims (l1 ++ l2))
     /\ claimSchema unicodeWords this
        = reduce (addClaim unicodeWords this) (l1 ++ l2) no_claims)
  /\ (throwExceptions (options this) = true ->
      forall l1 n l2 e,
        select this q_Name = Ok (l1 ++ n :: l2) ->
        Forall (resolves unicodeWords this) l1 ->
        describe unicodeWords this n = Throw e ->
        claimSchema unicodeWords this = Throw e)
  /\ (throwExceptions (options this) = false ->
      forall e,
        select this q_Name = Throw e ->
        claimSchema unicodeWords this = Ok no_claims).
Proof.
  split; [| split].
  - intros Hopt l1 n l2 e Hq Hd.
    unfold claimSchema, claimSchema_try. rewrite query_select, Hq. simpl.
    rewrite !reduce_keepClaim by assumption. simpl.
    now rewrite (foldl_keepClaim_skip _ _ _ _ _ _ _ Hd).
  - intros Hopt l1 n l2 e Hq Hall Hd.
    unfold claimSchema, claimSchema_try. rewrite query_select, Hq. simpl.
    rewrite reduce_app.
    destruct (reduce_resolving _ _ _ no_claims Hall) as [acc ->]. simpl.
    rewrite (addClaim_rethrow _ _ _ _ _ Hopt Hd). simpl.
    now rewrite Hopt.
  - intros Hopt e Hq.
    unfold claimSchema, claimSchema_try. rewrite query_select, Hq. simpl.
    now rewrite Hopt.
Qed.

Lemma claimSchema_partial_failure_witness :
  (exists m,
     claimSchema sample_unicodeWords (reader_of doc_claim_without_name defaultOptions) = Ok m
     /\ camelized <$> own m !! "urn:email" = Some "emailAddress"
     /\ own m !! "urn:nickname" = None
     /\ camelized <$> own m !! "urn:name" = Some "fullName")
  /\ claimSchema sample_unicodeWords (reader_of doc_claim_without_name throwing)
     = Throw TypeError
  /\ claimSchema sample_unicodeWords (reader_without_document defaultOptions)
     = Ok no_claims.
Proof.
  split; [| split].
  - eexists. split.
    + apply (proj1 (claimSchema_partial_failure sample_unicodeWords
                      (reader_of doc_claim_without_name defaultOptions)) eq_refl
               [AttrNode (mkAttr "Name" "urn:email")]
               (AttrNode (mkAttr "Name" "urn:nickname"))
               [AttrNode (mkAttr "Name" "urn:name")]
               TypeError).
      * vm_compute. reflexivity.
      * vm_compute. reflexivity.
    + vm_compute. repeat split.
  - apply (proj1 (proj2 (claimSchema_partial_failure sample_unicodeWords
                           (reader_of doc_claim_without_name throwing))) eq_refl
             [AttrNode (mkAttr "Name" "urn:email")]
             (AttrNode (mkAttr "Name" "urn:nickname"))
             [AttrNode (mkAttr "Name" "urn:name")]
             TypeError).
    + vm_compute. reflexivity.
    + repeat constructor. eexists. vm_compute. reflexivity.
    + vm_compute. reflexivity.
  - apply (proj2 (proj2 (claimSchema_partial_failure sample_unicodeWords
                           (reader_without_document defaultOptions))) eq_refl
             (EngineError "no document")).
    reflexivity.
Defined.

(** ** The normalized key of a claim *)
















(** ** The word splitter on phrases *)


Lemma all_chars_app (p : ascii -> bool) (a b : string) :
  lodash.all_chars p (a +:+ b) = lodash.all_chars p a && lodash.all_chars p b.
Proof.
  induction a as [| c a IH]; [reflexivity |]. rewrite append_cons. simpl.
  rewrite IH. now destruct (p c).
Qed.





Section RunEquations.

Import RegExp.

Context (fuel : nat) (prev : option ascii) (k : option ascii -> string -> option string).


Lemma run_Class_end p : run (S fuel) (Class p) prev EmptyString k = None.
Proof. reflexivity. Qed.






Lemma run_AtEnd : run (S fuel) AtEnd prev EmptyString k = k prev EmptyString.
Proof. reflexivity. Qed.

End RunEquations.









































(** ** Names with a double quote *)

Lemma q_FriendlyName_ToString (v w : option string) :
  ToString v = ToString w -> q_FriendlyName v = q_FriendlyName w.
Proof. unfold q_FriendlyName. now intros ->. Qed.

Lemma describe_lookup_fails unicodeWords this n :
  lookup_fails this (node_value n) ->
  exists e, describe unicodeWords this n = Throw e.
Proof.
  unfold lookup_fails, describe. rewrite query_select.
  destruct (select this (q_FriendlyName (node_value n))) as [[| first rest] | e];
    simpl; [eauto | tauto | eauto].
Qed.

Lemma lookup_fails_same_key this (n n' : node) :
  ToString (node_value n') = ToString (node_value n) ->
  lookup_fails this (node_value n) -> lookup_fails this (node_value n').
Proof.
  intros Hkey. unfold lookup_fails.
  now rewrite (q_FriendlyName_ToString _ _ Hkey).
Qed.

Lemma own_set_property_ne (m : claims) (key k : string) (c : claim) :
  key <> k -> own (set_property m key c) !! k = own m !! k.
Proof.
  intros Hne. unfold set_property.
  destruct (bool_decide (key = "__proto__")); simpl; [reflexivity |].
  now apply lookup_insert_ne.
Qed.

Lemma foldl_keepClaim_omits unicodeWords this n found acc :
  lookup_fails this (node_value n) ->
  own (foldl (keepClaim unicodeWords this) acc found) !! ToString (node_value n)
  = own acc !! ToString (node_value n).
Proof.
  intros Hfail. revert acc.
  induction found as [| n' found IH]; intros acc; simpl; [reflexivity |].
  rewrite IH. unfold keepClaim.
  destruct (describe unicodeWords this n') as [c | e] eqn:Hd; [| reflexivity].
  apply own_set_property_ne. intros Hkey.
  destruct (describe_lookup_fails unicodeWords this n'
              (lookup_fails_same_key this n n' Hkey Hfail)) as [e He].
  congruence.
Qed.

Lemma reduce_rethrows unicodeWords this n found acc :
  throwExceptions (options this) = true ->
  n ∈ found ->
  (exists e, describe unicodeWords this n = Throw e) ->
  exists e, reduce (addClaim unicodeWords this) found acc = Throw e.
Proof.
  intros Hopt Hin Hfail. revert acc.
  induction Hin as [n found | n n' found Hin IH]; intros acc; simpl.
  - destruct Hfail as [e He]. exists e.
    now rewrite (addClaim_rethrow _ _ _ _ _ Hopt He).
  - destruct (addClaim unicodeWords this acc n') as [acc' | e]; simpl; eauto.
Qed.

(** C10, as the code has it.  The lookup query of a claim is the Name put
    between double quotes inside a fixed path expression.  Whenever that
    lookup fails, because the engine rejects the query or because it
    selects no node, the claim is missing from the mapping when
    [throwExceptions] is false, and [claimSchema] throws when it is true,
    whatever the document holds for that Name.  A double quote in the Name
    changes the query; whether the lookup then fails is up to the query it
    yields. *)
Theorem claimSchema_failed_lookup
    (unicodeWords : string -> list string) (this : MetadataReader)
    (found : list node) (n : node) :
  select this q_Name = Ok found ->
  n ∈ found ->
  lookup_fails this (node_value n) ->
  q_FriendlyName (node_value n)
  = "//md:IDPSSODescriptor/claim:Attribute[@Name=" +:+ dquote
    +:+ ToString (node_value n) +:+ dquote +:+ "]/@FriendlyName"
  /\ (throwExceptions (options this) = false ->
      exists m, claimSchema unicodeWords this = Ok m
                /\ own m !! ToString (node_value n) = None)
  /\ (throwExceptions (options this) = true ->
      exists e, claimSchema unicodeWords this = Throw e).
Proof.
  intros Hq Hin Hfail. split; [reflexivity |]. split; intros Hopt.
  - exists (foldl (keepClaim unicodeWords this) no_claims found). split.
    + unfold claimSchema, claimSchema_try. rewrite query_select, Hq. simpl.
      now rewrite reduce_keepClaim.
    + rewrite foldl_keepClaim_omits by assumption. apply lookup_empty.
  - destruct (reduce_rethrows unicodeWords this n found no_claims Hopt Hin
                (describe_lookup_fails _ _ _ Hfail)) as [e He].
    exists e. unfold claimSchema, claimSchema_try. rewrite query_select, Hq. simpl.
    rewrite He. simpl. now rewrite Hopt.
Qed.

Lemma claimSchema_failed_lookup_witness :
  has_char "034"%char name_breaking_the_query = true
  /\ (exists m,
        claimSchema sample_unicodeWords (reader_of doc_broken_name defaultOptions) = Ok m
        /\ own m !! name_breaking_the_query = None)
  /\ (exists e,
        claimSchema sample_unicodeWords (reader_of doc_broken_name throwing) = Throw e).
Proof.
  split; [reflexivity |]. split.
  - apply (claimSchema_failed_lookup sample_unicodeWords
             (reader_of doc_broken_name defaultOptions)
             [AttrNode (mkAttr "Name" name_breaking_the_query)]
             (AttrNode (mkAttr "Name" name_breaking_the_query))).
    + vm_compute. reflexivity.
    + left.
    + vm_compute. exact I.
    + reflexivity.
  - apply (claimSchema_failed_lookup sample_unicodeWords
             (reader_of doc_broken_name throwing)
             [AttrNode (mkAttr "Name" name_breaking_the_query)]
             (AttrNode (mkAttr "Name" name_breaking_the_query))).
    + vm_compute. reflexivity.
    + left.
    + vm_compute. exact I.
    + reflexivity.
Defined.

(** C10, as stated, fails.  In [doc_quote_in_name] the Name is
    [x" or "1"="1]; the template literal yields the path expression
    [..Attribute[@Name="x" or "1"="1"]/@FriendlyName], whose predicate holds
    of every Attribute element.  The lookup succeeds: the claim is in the
    mapping when [throwExceptions] is false, and nothing is thrown when it
    is true. *)
Lemma quoted_name_is_resolved :
  has_char "034"%char name_closing_the_literal = true
  /\ select (reader_of doc_quote_in_name defaultOptions) q_Name
     = Ok [AttrNode (mkAttr "Name" name_closing_the_literal)]
  /\ select (reader_of doc_quote_in_name defaultOptions)
       (q_FriendlyName (Some name_closing_the_literal))
     = Ok [AttrNode (mkAttr "FriendlyName" "Quoted Name")]
  /\ (exists m,
        claimSchema sample_unicodeWords (reader_of doc_quote_in_name defaultOptions) = Ok m
        /\ own m !! name_closing_the_literal
           = Some (mkClaim (Some name_closing_the_literal) (Some "Quoted Name")
                     "quotedName"))
  /\ (exists m,
        claimSchema sample_unicodeWords (reader_of doc_quote_in_name throwing) = Ok m
        /\ own m !! name_closing_the_literal
           = Some (mkClaim (Some name_closing_the_literal) (Some "Quoted Name")
                     "quotedName"))
  /\ ~ quote_defeats_lookup.
Proof.
  split; [reflexivity |].
  split; [vm_compute; reflexivity |].
  split; [vm_compute; reflexivity |].
  split; [| split].
  - eexists. split; vm_compute; reflexivity.
  - eexists. split; vm_compute; reflexivity.
  - intros Hclaim.
    destruct (Hclaim sample_unicodeWords (reader_of doc_quote_in_name throwing)
                [AttrNode (mkAttr "Name" name_closing_the_literal)]
                name_closing_the_literal) as [_ Hthrow].
    + vm_compute. reflexivity.
    + left.
    + reflexivity.
    + destruct (Hthrow eq_refl) as [e He]. vm_compute in He. discriminate.
Qed.

(** * Further properties of the reader *)

(** ** What [throwExceptions] changes *)

Lemma try_catch_soft this (body : result jsval) :
  throwExceptions (options this) = false ->
  exists v, try_catch body (rescue this) = Ok v.
Proof.
  intros Hopt. destruct body as [v | e]; simpl; [eauto |].
  unfold rescue. rewrite Hopt. eauto.
Qed.

Lemma call_soft
    (number_sign : string -> option comparison) (unicodeWords : string -> list string)
    (this : MetadataReader) (g : getter) :
  throwExceptions (options this) = false ->
  exists r, call number_sign unicodeWords g this = Ok r.
Proof.
  intros Hopt.
  destruct g; unfold call;
    try (match goal with
         | |- exists r, Value <$> ?getter = Ok r =>
             let v := fresh "v" in
             let Hv := fresh "Hv" in
             assert (exists v, getter = Ok v) as [v Hv]
                 by (apply try_catch_soft; exact Hopt);
             rewrite Hv; simpl; eauto
         end).
  unfold claimSchema.
  destruct (claimSchema_try unicodeWords this) as [m | e]; simpl; [eauto |].
  rewrite Hopt. simpl. eauto.
Qed.

(** With [throwExceptions] false no getter throws, whatever the document
    and whatever the engine does: every one of them returns, and
    [claimSchema] returns a mapping. *)
Theorem getters_never_throw
    (number_sign : string -> option comparison) (unicodeWords : string -> list string)
    (this : MetadataReader) (g : getter) :
  throwExceptions (options this) = false ->
  (exists r, call number_sign unicodeWords g this = Ok r)
  /\ exists m, claimSchema unicodeWords this = Ok m.
Proof.
  intros Hopt. split; [now apply call_soft |].
  destruct (call_soft number_sign unicodeWords this ClaimSchema Hopt) as [r Hr].
  unfold call in Hr. destruct (claimSchema unicodeWords this) as [m | e]; [eauto |].
  discriminate.
Qed.

Lemma getters_never_throw_witness :
  (exists r, call sample_number_sign sample_unicodeWords (EncryptionCert true)
               (reader_without_document defaultOptions) = Ok r)
  /\ (exists r, call sample_number_sign sample_unicodeWords ClaimSchema
                  (reader_of doc_broken_name defaultOptions) = Ok r).
Proof.
  split.
  - apply (getters_never_throw sample_number_sign sample_unicodeWords
             (reader_without_document defaultOptions) (EncryptionCert true)).
    reflexivity.
  - apply (getters_never_throw sample_number_sign sample_unicodeWords
             (reader_of doc_broken_name defaultOptions) ClaimSchema).
    reflexivity.
Defined.

Lemma describe_configured unicodeWords (b : bool) this n :
  describe unicodeWords (configured b this) n = describe unicodeWords this n.
Proof. reflexivity. Qed.

Lemma addClaim_configured unicodeWords (b : bool) this acc n :
  addClaim unicodeWords (configured b this) acc n
  = match describe unicodeWords this n with
    | Ok c => Ok (set_property acc (ToString (node_value n)) c)
    | Throw e => if b then Throw e else Ok acc
    end.
Proof.
  unfold addClaim.
  change (describe unicodeWords (configured b this) n) with (describe unicodeWords this n).
  destruct (describe unicodeWords this n); reflexivity.
Qed.

Lemma reduce_addClaim_throwing unicodeWords this found acc m :
  reduce (addClaim unicodeWords (configured true this)) found acc = Ok m ->
  reduce (addClaim unicodeWords (configured false this)) found acc = Ok m
  /\ Forall (resolves unicodeWords this) found.
Proof.
  revert acc. induction found as [| n found IH]; intros acc; simpl.
  - intros [= <-]. split; [reflexivity | constructor].
  - rewrite !addClaim_configured.
    destruct (describe unicodeWords this n) as [c | e] eqn:Hd; simpl; [| discriminate].
    intros Hr. destruct (IH _ Hr) as [Hsoft Hall].
    split; [exact Hsoft |]. constructor; [now exists c | exact Hall].
Qed.

(** A getter that succeeds with [throwExceptions] true gives the same
    answer with [throwExceptions] false; and every getter but [claimSchema]
    that throws with [throwExceptions] true answers [undefined] with
    [throwExceptions] false. *)
Theorem throwExceptions_keeps_answers
    (number_sign : string -> option comparison) (unicodeWords : string -> list string)
    (this : MetadataReader) (g : getter) :
  (forall r,
     call number_sign unicodeWords g (configured true this) = Ok r ->
     call number_sign unicodeWords g (configured false this) = Ok r)
  /\ (forall e,
        g <> ClaimSchema ->
        call number_sign unicodeWords g (configured true this) = Throw e ->
        call number_sign unicodeWords g (configured false this) = Ok (Value JSUndefined)).
Proof.
  assert (Hplain : forall body : result jsval,
             (forall v, try_catch body (rescue (configured true this)) = Ok v ->
                        try_catch body (rescue (configured false this)) = Ok v)
             /\ (forall e, try_catch body (rescue (configured true this)) = Throw e ->
                           try_catch body (rescue (configured false this)) = Ok JSUndefined)).
  { intros [v | e]; simpl; split; intros x Hx; try exact Hx; try discriminate.
    reflexivity. }
  assert (Hlist : forall body : result jsval,
             (forall v,
                try_catch (certs ← try_catch body (rescue (configured true this));
                           first ← index0 certs; call_trim first)
                  (rescue (configured true this)) = Ok v ->
                try_catch (certs ← try_catch body (rescue (configured false this));
                           first ← index0 certs; call_trim first)
                  (rescue (configured false this)) = Ok v)
             /\ (forall e,
                   try_catch (certs ← try_catch body (rescue (configured true this));
                              first ← index0 certs; call_trim first)
                     (rescue (configured true this)) = Throw e ->
                   try_catch (certs ← try_catch body (rescue (configured false this));
                              first ← index0 certs; call_trim first)
                     (rescue (configured false this)) = Ok JSUndefined)).
  { intros [certs | e]; simpl; [apply Hplain |].
    split; intros x Hx; [discriminate | reflexivity]. }
  assert (Hvalue : forall (on off : result jsval),
             (forall v, on = Ok v -> off = Ok v)
             /\ (forall e, on = Throw e -> off = Ok JSUndefined) ->
             (forall r, Value <$> on = Ok r -> Value <$> off = Ok r)
             /\ (forall e, Value <$> on = Throw e -> Value <$> off = Ok (Value JSUndefined))).
  { intros on off [Hok Hthrow]. split.
    - intros r. destruct on as [v | e]; simpl; [| discriminate].
      intros [= <-]. now rewrite (Hok v eq_refl).
    - intros e. destruct on as [v | e']; simpl; [discriminate |].
      intros _. now rewrite (Hthrow e' eq_refl). }
  destruct g; unfold call;
    try (destruct (Hvalue _ _ (Hplain (entityID_try this))) as [Hok Hthrow];
         split; [exact Hok | intros e _; exact (Hthrow e)]);
    try (destruct (Hvalue _ _ (Hplain (identifierFormat_try this))) as [Hok Hthrow];
         split; [exact Hok | intros e _; exact (Hthrow e)]);
    try (destruct (Hvalue _ _ (Hplain (identityProviderUrl_try number_sign this)))
           as [Hok Hthrow];
         split; [exact Hok | intros e _; exact (Hthrow e)]);
    try (destruct (Hvalue _ _ (Hplain (logoutUrl_try number_sign this))) as [Hok Hthrow];
         split; [exact Hok | intros e _; exact (Hthrow e)]);
    try (destruct (Hvalue _ _ (Hplain (encryptionCerts_try this trimNewLines)))
           as [Hok Hthrow];
         split; [exact Hok | intros e _; exact (Hthrow e)]);
    try (destruct (Hvalue _ _ (Hplain (signingCerts_try this trimNewLines)))
           as [Hok Hthrow];
         split; [exact Hok | intros e _; exact (Hthrow e)]);
    try (destruct (Hvalue _ _ (Hlist (encryptionCerts_try this trimNewLines)))
           as [Hok Hthrow];
         split; [exact Hok | intros e _; exact (Hthrow e)]);
    try (destruct (Hvalue _ _ (Hlist (signingCerts_try this trimNewLines)))
           as [Hok Hthrow];
         split; [exact Hok | intros e _; exact (Hthrow e)]).
  split; [| intros e Hg; contradiction].
  intros r. unfold claimSchema, claimSchema_try.
  change (query (configured true this) q_Name) with (query this q_Name).
  change (query (configured false this) q_Name) with (query this q_Name).
  destruct (query this q_Name) as [found | e]; simpl; [| discriminate].
  destruct (reduce (addClaim unicodeWords (configured true this)) found no_claims)
    as [m | e] eqn:Hr; simpl; [| discriminate].
  intros [= <-].
  destruct (reduce_addClaim_throwing _ _ _ _ _ Hr) as [-> _]. reflexivity.
Qed.

Lemma throwExceptions_keeps_answers_witness :
  call sample_number_sign sample_unicodeWords ClaimSchema
    (configured false (reader_of doc_two_claims defaultOptions))
  = call sample_number_sign sample_unicodeWords ClaimSchema
      (configured true (reader_of doc_two_claims defaultOptions))
  /\ call sample_number_sign sample_unicodeWords IdentityProviderUrl
       (configured false (reader_of doc_no_service defaultOptions))
     = Ok (Value JSUndefined).
Proof.
  pose proof (throwExceptions_keeps_answers sample_number_sign sample_unicodeWords
                (reader_of doc_two_claims defaultOptions) ClaimSchema) as [Hok _].
  pose proof (throwExceptions_keeps_answers sample_number_sign sample_unicodeWords
                (reader_of doc_no_service defaultOptions) IdentityProviderUrl)
    as [_ Hthrow].
  split.
  - destruct (call sample_number_sign sample_unicodeWords ClaimSchema
                (configured true (reader_of doc_two_claims defaultOptions)))
      as [r | e] eqn:Hcall.
    + now apply Hok.
    + vm_compute in Hcall. discriminate.
  - apply (Hthrow TypeError); [discriminate | vm_compute; reflexivity].
Defined.

(** ** The endpoint the getters choose *)

Lemma entries_values {A} (f : A -> lodash.criterion) (k : nat) (l : list A) :
  lodash.entry_value <$> imap (fun i v => lodash.mkEntry (f v) (k + i) v) l = l.
Proof.
  revert k. induction l as [| x l IH]; intros k; [reflexivity |].
  rewrite imap_cons. cbn [fmap list_fmap lodash.entry_value]. f_equal.
  rewrite <- (IH (S k)) at 2. f_equal. apply imap_ext. intros i y _. simpl.
  now rewrite Nat.add_succ_r.
Qed.

(** [sortBy] rearranges the collection: no element is lost, added or
    repeated. *)
Lemma sortBy_perm {A} (number_sign : string -> option comparison)
    (l : list A) (f : A -> lodash.criterion) :
  lodash.sortBy number_sign l f ≡ₚ l.
Proof.
  unfold lodash.sortBy. rewrite sort_perm. apply reflexive_eq.
  apply (entries_values f 0 l).
Qed.

Lemma compareMultiple_Zero {A} (number_sign : string -> option comparison)
    (a b : lodash.entry A) :
  lodash.criteria a = lodash.Zero -> lodash.criteria b = lodash.Zero ->
  lodash.compareMultiple number_sign a b
  = Z.of_nat (lodash.index a) - Z.of_nat (lodash.index b).
Proof. intros Ha Hb. unfold lodash.compareMultiple. now rewrite Ha, Hb. Qed.

Lemma sort_unindexed_entries (number_sign : string -> option comparison)
    (k : nat) (l : list node) :
  Forall unindexed l ->
  lodash.sort (lodash.compareMultiple number_sign)
    (imap (fun i v => lodash.mkEntry (indexCriterion v) (k + i) v) l)
  = imap (fun i v => lodash.mkEntry (indexCriterion v) (k + i) v) l.
Proof.
  intros Hall. revert k. induction Hall as [| x l Hx Hl IH]; intros k; [reflexivity |].
  rewrite imap_cons. unfold lodash.sort. cbn [foldr].
  assert (Hshift : imap ((fun i v => lodash.mkEntry (indexCriterion v) (k + i) v) ∘ S) l
                   = imap (fun i v => lodash.mkEntry (indexCriterion v) (S k + i) v) l).
  { apply imap_ext. intros i y _. simpl. now rewrite Nat.add_succ_r. }
  rewrite Hshift. fold (lodash.sort (lodash.compareMultiple number_sign)
                          (imap (fun i v => lodash.mkEntry (indexCriterion v) (S k + i) v) l)).
  rewrite IH. destruct l as [| y l]; [reflexivity |].
  rewrite imap_cons. cbn [lodash.insert].
  rewrite compareMultiple_Zero; cbn [lodash.criteria lodash.index].
  - destruct (0 <? Z.of_nat (k + 0) - Z.of_nat (S k + 0)) eqn:Hcmp; [| reflexivity].
    apply Z.ltb_lt in Hcmp. lia.
  - unfold indexCriterion. unfold unindexed in Hx. now rewrite Hx.
  - apply Forall_cons in Hl as [Hy _].
    unfold indexCriterion. unfold unindexed in Hy. now rewrite Hy.
Qed.

(** Without [index] attributes the sort leaves the elements in document
    order. *)
Lemma sortBy_unindexed (number_sign : string -> option comparison) (found : list node) :
  Forall unindexed found ->
  lodash.sortBy number_sign found indexCriterion = found.
Proof.
  intros Hall. unfold lodash.sortBy.
  pose proof (sort_unindexed_entries number_sign 0 found Hall) as Hsort.
  cbn [Nat.add] in Hsort. rewrite Hsort.
  apply (entries_values indexCriterion 0 found).
Qed.

Lemma find_first {A} (p : A -> bool) (pre : list A) (x : A) (post : list A) :
  Forall (fun y => p y = false) pre -> p x = true ->
  lodash.find p (pre ++ x :: post) = Some x.
Proof.
  induction 1 as [| y pre Hy _ IH]; intros Hx; simpl.
  - now rewrite Hx.
  - rewrite Hy. now apply IH.
Qed.

Lemma head_elem {A} (l : list A) (x : A) : head l = Some x -> x ∈ l.
Proof. destruct l; [discriminate |]. intros [= <-]. left. Qed.

(** The element both getters go on with: the first of the sorted elements
    that matches the binding, or else the first of them. *)
Lemma serviceLocation_chosen (number_sign : string -> option comparison)
    (this : MetadataReader) (q : string) (found : list node) :
  select this q = Ok found ->
  serviceLocation number_sign this q
  = match
      match lodash.find (hasBinding this) (lodash.sortBy number_sign found indexCriterion) with
      | Some element => Some element
      | None => head (lodash.sortBy number_sign found indexCriterion)
      end
    with
    | Some element => location_or_failure this element
    | None => rescue this TypeError
    end.
Proof.
  intros Hq. unfold serviceLocation. rewrite query_select, Hq. cbn [mbind result_bind].
  destruct (match lodash.find (hasBinding this) _ with Some e => Some e | None => _ end)
    as [element |]; [| reflexivity].
  unfold location_or_failure, location. cbn [member mbind result_bind].
  destruct (lodash.find (lodash.matches_name "Location") (node_attributes element));
    reflexivity.
Qed.

Lemma serviceLocation_string (number_sign : string -> option comparison)
    (this : MetadataReader) (q : string) (v : string) :
  serviceLocation number_sign this q = Ok (JSString v) ->
  exists found element,
    select this q = Ok found /\ element ∈ found /\ location element = Some v
    /\ ((exists other, other ∈ found /\ hasBinding this other = true) ->
        hasBinding this element = true).
Proof.
  destruct (select this q) as [found | e] eqn:Hq.
  - rewrite (serviceLocation_chosen number_sign this q found Hq).
    set (sorted := lodash.sortBy number_sign found indexCriterion).
    assert (Hperm : sorted ≡ₚ found) by apply sortBy_perm.
    assert (Hfail : forall w, rescue this TypeError <> Ok (JSString w)).
    { intros w. unfold rescue. destruct (throwExceptions (options this)); discriminate. }
    assert (Hloc : forall element,
               location_or_failure this element = Ok (JSString v) ->
               location element = Some v).
    { intros element. unfold location_or_failure.
      destruct (location element) as [w |]; [now intros [= ->] |].
      intros H. now apply Hfail in H. }
    destruct (lodash.find (hasBinding this) sorted) as [element |] eqn:Hfind.
    + intros Hres. apply find_Some_elem in Hfind as [Hin Hb].
      exists found, element. rewrite Hperm in Hin. auto.
    + destruct (head sorted) as [element |] eqn:Hhead.
      * intros Hres. exists found, element. apply head_elem in Hhead.
        rewrite Hperm in Hhead. repeat split; auto.
        intros (other & Hother & Hb). rewrite <- Hperm in Hother.
        rewrite find_None_all in Hfind. rewrite (Hfind other Hother) in Hb. discriminate.
      * intros H. now apply Hfail in H.
  - unfold serviceLocation. rewrite query_select, Hq. simpl.
    unfold rescue. destruct (throwExceptions (options this)); discriminate.
Qed.

(** A URL that [identityProviderUrl] or [logoutUrl] returns is the
    [Location] of one of the elements the query selected; and when some
    selected element matches the binding, it is the [Location] of an
    element that matches. *)
Theorem endpoint_location_from_document
    (number_sign : string -> option comparison) (this : MetadataReader) (v : string) :
  (identityProviderUrl number_sign this = Ok (JSString v) ->
   exists found element,
     select this q_SingleSignOnService = Ok found /\ element ∈ found
     /\ location element = Some v
     /\ ((exists other, other ∈ found /\ hasBinding this other = true) ->
         hasBinding this element = true))
  /\ (logoutUrl number_sign this = Ok (JSString v) ->
      exists found element,
        select this q_SingleLogoutService = Ok found /\ element ∈ found
        /\ location element = Some v
        /\ ((exists other, other ∈ found /\ hasBinding this other = true) ->
            hasBinding this element = true)).
Proof.
  split.
  - apply (serviceLocation_string number_sign this q_SingleSignOnService v).
  - apply (serviceLocation_string number_sign this q_SingleLogoutService v).
Qed.

Lemma endpoint_location_from_document_witness :
  exists found element,
    select (reader_of doc_index_2_10 defaultOptions) q_SingleLogoutService = Ok found
    /\ element ∈ found
    /\ location element = Some "https://idp.example.com/out-ten"
    /\ ((exists other, other ∈ found
                       /\ hasBinding (reader_of doc_index_2_10 defaultOptions) other = true) ->
        hasBinding (reader_of doc_index_2_10 defaultOptions) element = true).
Proof.
  apply (proj2 (endpoint_location_from_document sample_number_sign
                  (reader_of doc_index_2_10 defaultOptions)
                  "https://idp.example.com/out-ten")).
  vm_compute. reflexivity.
Defined.

(** When the query selects one element only, both getters answer with its
    [Location], or fail when it has none, whatever [authnRequestBinding]
    and the [Binding] of the element are. *)
Theorem single_endpoint_is_chosen
    (number_sign : string -> option comparison) (this : MetadataReader) (element : node) :
  (select this q_SingleSignOnService = Ok [element] ->
   identityProviderUrl number_sign this = location_or_failure this element)
  /\ (select this q_SingleLogoutService = Ok [element] ->
      logoutUrl number_sign this = location_or_failure this element).
Proof.
  assert (Hone : forall q, select this q = Ok [element] ->
                           serviceLocation number_sign this q
                           = location_or_failure this element).
  { intros q Hq. rewrite (serviceLocation_chosen number_sign this q [element] Hq).
    change (lodash.sortBy number_sign [element] indexCriterion) with [element].
    cbn [lodash.find head]. destruct (hasBinding this element); reflexivity. }
  split; apply Hone.
Qed.

Lemma single_endpoint_is_chosen_witness :
  identityProviderUrl sample_number_sign (reader_of doc_single_endpoint defaultOptions)
  = Ok (JSString "https://idp.example.com/post").
Proof.
  apply (proj1 (single_endpoint_is_chosen sample_number_sign
                  (reader_of doc_single_endpoint defaultOptions)
                  (service "SingleSignOnService"
                     [mkAttr "Binding" post;
                      mkAttr "Location" "https://idp.example.com/post"]))).
  vm_compute. reflexivity.
Defined.

Lemma serviceLocation_unindexed (number_sign : string -> option comparison)
    (this : MetadataReader) (q : string) (found : list node) :
  select this q = Ok found ->
  Forall unindexed found ->
  (forall pre element post,
     found = pre ++ element :: post ->
     Forall (fun other => hasBinding this other = false) pre ->
     hasBinding this element = true ->
     serviceLocation number_sign this q = location_or_failure this element)
  /\ (Forall (fun other => hasBinding this other = false) found ->
      serviceLocation number_sign this q
      = match head found with
        | Some element => location_or_failure this element
        | None => rescue this TypeError
        end).
Proof.
  intros Hq Hall.
  rewrite (serviceLocation_chosen number_sign this q found Hq).
  rewrite (sortBy_unindexed number_sign found Hall).
  split.
  - intros pre element post -> Hpre Hb. now rewrite (find_first _ _ _ _ Hpre Hb).
  - intros Hnone.
    assert (Hfind : lodash.find (hasBinding this) found = None).
    { apply find_None_all. rewrite Forall_forall in Hnone. exact Hnone. }
    now rewrite Hfind.
Qed.

(** When no selected element has an [index] attribute, the getters answer
    with the first element in document order that matches the binding: with
    its [Location], or with a failure when it has none, without going on
    to a later element. *)
Theorem first_match_in_document_order
    (number_sign : string -> option comparison) (this : MetadataReader)
    (pre : list node) (element : node) (post : list node) :
  Forall unindexed (pre ++ element :: post) ->
  Forall (fun other => hasBinding this other = false) pre ->
  hasBinding this element = true ->
  (select this q_SingleSignOnService = Ok (pre ++ element :: post) ->
   identityProviderUrl number_sign this = location_or_failure this element)
  /\ (select this q_SingleLogoutService = Ok (pre ++ element :: post) ->
      logoutUrl number_sign this = location_or_failure this element).
Proof.
  intros Hall Hpre Hb. split; intros Hq.
  - apply (proj1 (serviceLocation_unindexed number_sign this q_SingleSignOnService
                    _ Hq Hall) pre element post eq_refl Hpre Hb).
  - apply (proj1 (serviceLocation_unindexed number_sign this q_SingleLogoutService
                    _ Hq Hall) pre element post eq_refl Hpre Hb).
Qed.

Lemma first_match_in_document_order_witness :
  identityProviderUrl sample_number_sign (reader_of doc_binding_in_location
                                            {| authnRequestBinding := "HTTP-POST";
                                               throwExceptions := false |})
  = Ok (JSString redirect).
Proof.
  apply (proj1 (first_match_in_document_order sample_number_sign
                  (reader_of doc_binding_in_location
                     {| authnRequestBinding := "HTTP-POST"; throwExceptions := false |})
                  []
                  (service "SingleSignOnService"
                     [mkAttr "Binding" post; mkAttr "Location" redirect])
                  [service "SingleSignOnService"
                     [mkAttr "Binding" redirect;
                      mkAttr "Location" "https://idp.example.com/sso"]]
                  ltac:(repeat constructor) ltac:(constructor) eq_refl)).
  vm_compute. reflexivity.
Defined.

(** When no selected element has an [index] attribute and none matches
    the binding, the getters fall back to the first element in document
    order; with no element at all they fail. *)
Theorem fallback_to_first_in_document_order
    (number_sign : string -> option comparison) (this : MetadataReader)
    (found : list node) :
  Forall unindexed found ->
  Forall (fun other => hasBinding this other = false) found ->
  (select this q_SingleSignOnService = Ok found ->
   identityProviderUrl number_sign this
   = match head found with
     | Some element => location_or_failure this element
     | None => rescue this TypeError
     end)
  /\ (select this q_SingleLogoutService = Ok found ->
      logoutUrl number_sign this
      = match head found with
        | Some element => location_or_failure this element
        | None => rescue this TypeError
        end).
Proof.
  intros Hall Hnone. split; intros Hq.
  - apply (proj2 (serviceLocation_unindexed number_sign this q_SingleSignOnService
                    _ Hq Hall) Hnone).
  - apply (proj2 (serviceLocation_unindexed number_sign this q_SingleLogoutService
                    _ Hq Hall) Hnone).
Qed.

Lemma fallback_to_first_in_document_order_witness :
  logoutUrl sample_number_sign (reader_of doc_binding_in_location
                                  {| authnRequestBinding := "SOAP";
                                     throwExceptions := false |})
  = Ok (JSString redirect).
Proof.
  apply (proj2 (fallback_to_first_in_document_order sample_number_sign
                  (reader_of doc_binding_in_location
                     {| authnRequestBinding := "SOAP"; throwExceptions := false |})
                  [service "SingleLogoutService"
                     [mkAttr "Binding" post; mkAttr "Location" redirect];
                   service "SingleLogoutService"
                     [mkAttr "Binding" redirect;
                      mkAttr "Location" "https://idp.example.com/slo"]]
                  ltac:(repeat constructor) ltac:(repeat constructor))).
  vm_compute. reflexivity.
Defined.

(** ** The order of endpoints that all carry an index *)

Lemma entries_indices {A} (f : A -> lodash.criterion) (k : nat) (l : list A) :
  lodash.index <$> imap (fun i v => lodash.mkEntry (f v) (k + i) v) l = seq k (length l).
Proof.
  revert k. induction l as [| x l IH]; intros k; [reflexivity |].
  rewrite imap_cons. cbn [fmap list_fmap lodash.index length seq].
  rewrite Nat.add_0_r. f_equal.
  rewrite <- (IH (S k)). f_equal. apply imap_ext. intros i y _. simpl.
  now rewrite Nat.add_succ_r.
Qed.

(** The entries of a sort have different positions. *)
Lemma entries_NoDup {A} (f : A -> lodash.criterion) (l : list A)
    (entries : list (lodash.entry A)) :
  entries ≡ₚ imap (fun i v => lodash.mkEntry (f v) i v) l ->
  NoDup (lodash.index <$> entries).
Proof.
  intros Hperm. rewrite Hperm.
  pose proof (entries_indices f 0 l) as Hseq. cbn [Nat.add] in Hseq.
  rewrite Hseq. apply NoDup_seq.
Qed.

Lemma StronglySorted_strengthen {A B} (f : A -> B) (P : A -> Prop) (R R' : A -> A -> Prop)
    (l : list A) :
  (forall a b, P a -> P b -> R a b -> f a <> f b -> R' a b) ->
  Forall P l -> NoDup (f <$> l) -> StronglySorted R l -> StronglySorted R' l.
Proof.
  intros Hstrong HP Hnodup Hsorted.
  induction Hsorted as [| x l Hl IH Hx]; [constructor |].
  apply Forall_cons in HP as [HPx HPl].
  rewrite fmap_cons in Hnodup. apply NoDup_cons in Hnodup as [Hnotin Hnodup].
  constructor; [now apply IH |].
  rewrite Forall_forall in Hx, HPl. apply Forall_forall. intros y Hy.
  apply Hstrong; auto.
  intros Heq. apply Hnotin. rewrite Heq. now apply list_elem_of_fmap_2.
Qed.

Lemma compareMultiple_text_before (number_sign : string -> option comparison)
    (a b : lodash.entry node) :
  textual a -> textual b ->
  lodash.compareMultiple number_sign a b <= 0 ->
  lodash.index a <> lodash.index b ->
  text_before a b.
Proof.
  intros [sa Ha] [sb Hb]. rewrite (compareMultiple_text number_sign a b sa sb Ha Hb).
  intros Hcmp Hne. exists sa, sb. split; [exact Ha |]. split; [exact Hb |].
  destruct (sa ?= sb)%string eqn:Hs.
  - right. split; [now apply String.compare_eq_iff | lia].
  - now left.
  - lia.
Qed.

(** No two entries stand before each other. *)
Lemma text_before_asymmetric (a b : lodash.entry node) :
  text_before a b -> text_before b a -> False.
Proof.
  intros (sa & sb & Ha & Hb & Hab) (sb' & sa' & Hb' & Ha' & Hba).
  rewrite Ha in Ha'. rewrite Hb in Hb'.
  injection Ha' as <-. injection Hb' as <-.
  destruct Hab as [Hlt | [-> Hlt]], Hba as [Hlt' | [Heq Hlt']].
  - rewrite String.compare_antisym, Hlt in Hlt'. discriminate.
  - subst. rewrite string_compare_refl in Hlt. discriminate.
  - rewrite string_compare_refl in Hlt'. discriminate.
  - lia.
Qed.

(** When every selected element has an [index] attribute, the getters go
    through the elements in ascending order of the index text, compared as
    strings, and elements with the same text in document order: the
    entries of the sort, each an element with its position in the
    document, come out in the one arrangement in which every entry stands
    before all later ones. *)
Theorem endpoints_sorted_by_index_text
    (number_sign : string -> option comparison) (found : list node) :
  Forall indexed found ->
  exists entries,
    lodash.sortBy number_sign found indexCriterion = lodash.entry_value <$> entries
    /\ entries ≡ₚ imap (fun i v => lodash.mkEntry (indexCriterion v) i v) found
    /\ lodash.entry_value <$> entries ≡ₚ found
    /\ Forall (entry_of found) entries
    /\ StronglySorted text_before entries
    /\ (forall other,
          other ≡ₚ imap (fun i v => lodash.mkEntry (indexCriterion v) i v) found ->
          StronglySorted text_before other ->
          other = entries).
Proof.
  intros Hall.
  set (unsorted := imap (fun i v => lodash.mkEntry (indexCriterion v) i v) found).
  exists (lodash.sort (lodash.compareMultiple number_sign) unsorted).
  assert (Hperm : lodash.sort (lodash.compareMultiple number_sign) unsorted ≡ₚ unsorted)
    by apply sort_perm.
  assert (Hentries : Forall (entry_of found) unsorted).
  { apply Forall_forall. intros e He.
    apply elem_of_lookup_imap in He as (i & v & -> & Hv). split; [exact Hv | reflexivity]. }
  assert (Htext : Forall textual unsorted).
  { apply Forall_forall. intros e He.
    apply elem_of_lookup_imap in He as (i & v & -> & Hv).
    rewrite Forall_forall in Hall. apply Hall. now apply list_elem_of_lookup_2 with i. }
  assert (Hsorted : StronglySorted text_before
                      (lodash.sort (lodash.compareMultiple number_sign) unsorted)).
  { apply (StronglySorted_strengthen lodash.index textual
             (fun a b => lodash.compareMultiple number_sign a b <= 0)).
    - apply compareMultiple_text_before.
    - now rewrite Hperm.
    - now apply (entries_NoDup indexCriterion found).
    - apply (sort_sorted (lodash.compareMultiple number_sign) textual
               (compareMultiple_text_trans number_sign)
               (compareMultiple_text_total number_sign) unsorted Htext). }
  split; [reflexivity |]. split; [exact Hperm |]. split; [| split; [| split]].
  - rewrite Hperm. apply reflexive_eq. apply (entries_values indexCriterion 0 found).
  - now rewrite Hperm.
  - exact Hsorted.
  - intros other Hother Hsorted'.
    apply (StronglySorted_unique_strong text_before); [| exact Hsorted' | exact Hsorted |].
    + intros x y _ _ Hxy Hyx. destruct (text_before_asymmetric x y Hxy Hyx).
    + now rewrite Hperm.
Qed.

(** Three endpoints, the first and the last with the same index text and
    the same location: the one with the text [10] comes first, and the
    other two keep their order in the document. *)
Lemma endpoints_sorted_by_index_text_witness :
  Forall indexed
    [ service "SingleSignOnService" [mkAttr "Location" "b"; mkAttr "index" "2"];
      service "SingleSignOnService" [mkAttr "Location" "a"; mkAttr "index" "10"];
      service "SingleSignOnService" [mkAttr "Location" "b"; mkAttr "index" "2"] ]
  /\ exists entries,
      lodash.sortBy sample_number_sign
        [ service "SingleSignOnService" [mkAttr "Location" "b"; mkAttr "index" "2"];
          service "SingleSignOnService" [mkAttr "Location" "a"; mkAttr "index" "10"];
          service "SingleSignOnService" [mkAttr "Location" "b"; mkAttr "index" "2"] ]
        indexCriterion
      = lodash.entry_value <$> entries
      /\ entries
         ≡ₚ imap (fun i v => lodash.mkEntry (indexCriterion v) i v)
              [ service "SingleSignOnService" [mkAttr "Location" "b"; mkAttr "index" "2"];
                service "SingleSignOnService" [mkAttr "Location" "a"; mkAttr "index" "10"];
                service "SingleSignOnService" [mkAttr "Location" "b"; mkAttr "index" "2"] ]
      /\ lodash.entry_value <$> entries
         ≡ₚ [ service "SingleSignOnService" [mkAttr "Location" "b"; mkAttr "index" "2"];
              service "SingleSignOnService" [mkAttr "Location" "a"; mkAttr "index" "10"];
              service "SingleSignOnService" [mkAttr "Location" "b"; mkAttr "index" "2"] ]
      /\ Forall
           (entry_of
              [ service "SingleSignOnService" [mkAttr "Location" "b"; mkAttr "index" "2"];
                service "SingleSignOnService" [mkAttr "Location" "a"; mkAttr "index" "10"];
                service "SingleSignOnService" [mkAttr "Location" "b"; mkAttr "index" "2"] ])
           entries
      /\ StronglySorted text_before entries
      /\ (forall other,
            other
            ≡ₚ imap (fun i v => lodash.mkEntry (indexCriterion v) i v)
                 [ service "SingleSignOnService" [mkAttr "Location" "b"; mkAttr "index" "2"];
                   service "SingleSignOnService" [mkAttr "Location" "a"; mkAttr "index" "10"];
                   service "SingleSignOnService" [mkAttr "Location" "b"; mkAttr "index" "2"] ] ->
            StronglySorted text_before other ->
            other = entries)
      /\ lodash.index <$> entries = [1; 0; 2]%nat.
Proof.
  assert (Hall : Forall indexed
            [ service "SingleSignOnService" [mkAttr "Location" "b"; mkAttr "index" "2"];
              service "SingleSignOnService" [mkAttr "Location" "a"; mkAttr "index" "10"];
              service "SingleSignOnService" [mkAttr "Location" "b"; mkAttr "index" "2"] ])
    by (repeat constructor; eexists; reflexivity).
  split; [exact Hall |].
  destruct (endpoints_sorted_by_index_text sample_number_sign _ Hall)
    as (entries & Hsort & Hperm & Hvalues & Hentries & Hsorted & Hunique).
  exists entries. repeat (split; [assumption |]).
  rewrite <- (Hunique
                [ lodash.mkEntry (lodash.Raw "10") 1
                    (service "SingleSignOnService" [mkAttr "Location" "a"; mkAttr "index" "10"]);
                  lodash.mkEntry (lodash.Raw "2") 0
                    (service "SingleSignOnService" [mkAttr "Location" "b"; mkAttr "index" "2"]);
                  lodash.mkEntry (lodash.Raw "2") 2
                    (service "SingleSignOnService" [mkAttr "Location" "b"; mkAttr "index" "2"]) ]);
    [reflexivity | |].
  - vm_compute. apply perm_swap.
  - repeat constructor; eexists _, _; (split; [reflexivity |]); (split; [reflexivity |]);
      first [left; reflexivity | right; split; [reflexivity | simpl; lia]].
Defined.

(** ** Certificate lists *)

Lemma certificateText_error (b : bool) (n : node) (e : exn) :
  certificateText b n = Throw e -> e = TypeError.
Proof.
  unfold certificateText. destruct (firstChild n) as [child |]; simpl.
  - destruct b; [| discriminate]. destruct (node_data child); simpl; congruence.
  - congruence.
Qed.

Lemma certificateText_childless (b : bool) (n : node) :
  childless n -> certificateText b n = Throw TypeError.
Proof. unfold childless, certificateText. now intros ->. Qed.

Lemma certificateText_stripped (n : node) (v : jsval) :
  certificateText true n = Ok v -> exists t, v = JSString (strip t).
Proof.
  unfold certificateText. destruct (firstChild n) as [child |]; simpl; [| discriminate].
  destruct (node_data child) as [| | t | l]; simpl; try discriminate.
  intros [= <-]. now exists t.
Qed.

Lemma mapM_cons_inv {A B} (f : A -> result B) (x : A) (l : list A) (ys : list B) :
  mapM f (x :: l) = Ok ys ->
  exists y rest, ys = y :: rest /\ f x = Ok y /\ mapM f l = Ok rest.
Proof.
  cbn [mapM]. destruct (f x) as [y | e]; simpl; [| discriminate].
  destruct (mapM f l) as [rest | e]; simpl; [| discriminate].
  intros [= <-]. eauto.
Qed.

Lemma mapM_length {A B} (f : A -> result B) (l : list A) (ys : list B) :
  mapM f l = Ok ys -> length ys = length l.
Proof.
  revert ys. induction l as [| x l IH]; intros ys.
  - now intros [= <-].
  - intros H. apply mapM_cons_inv in H as (y & rest & -> & _ & Hrest).
    simpl. f_equal. now apply IH.
Qed.

Lemma mapM_certificateText_fails (b : bool) (found : list node) (n : node) :
  n ∈ found -> certificateText b n = Throw TypeError ->
  mapM (certificateText b) found = Throw TypeError.
Proof.
  intros Hin Hn. induction Hin as [n found | n m found Hin IH]; cbn [mapM].
  - now rewrite Hn.
  - destruct (certificateText b m) as [y | e] eqn:Hm; simpl.
    + now rewrite IH.
    + now rewrite (certificateText_error b m e Hm).
Qed.

(** A certificate element without a child makes the whole list fail: the
    list getters answer [undefined] (or throw the TypeError), and so do
    the single-certificate getters; the other certificates are not
    returned. *)
Theorem certificates_all_or_nothing (this : MetadataReader) (found : list node)
    (n : node) (b : bool) :
  n ∈ found -> childless n ->
  (select this q_encryption = Ok found ->
   encryptionCerts this b = rescue this TypeError
   /\ encryptionCert this b = rescue this TypeError)
  /\ (select this q_signing = Ok found ->
      signingCerts this b = rescue this TypeError
      /\ signingCert this b = rescue this TypeError).
Proof.
  intros Hin Hn.
  pose proof (mapM_certificateText_fails b found n Hin (certificateText_childless b n Hn))
    as Hmap.
  assert (Hsingle : try_catch (certs ← rescue this TypeError; first ← index0 certs;
                               call_trim first) (rescue this)
                    = rescue this TypeError).
  { unfold rescue. destruct (throwExceptions (options this)); reflexivity. }
  split; intros Hq.
  - assert (Hlist : encryptionCerts this b = rescue this TypeError).
    { unfold encryptionCerts, encryptionCerts_try. rewrite query_select, Hq. simpl.
      now rewrite Hmap. }
    split; [exact Hlist |].
    unfold encryptionCert, encryptionCert_try. rewrite Hlist. exact Hsingle.
  - assert (Hlist : signingCerts this b = rescue this TypeError).
    { unfold signingCerts, signingCerts_try. rewrite query_select, Hq. simpl.
      now rewrite Hmap. }
    split; [exact Hlist |].
    unfold signingCert, signingCert_try. rewrite Hlist. exact Hsingle.
Qed.

Lemma certificates_all_or_nothing_witness :
  signingCerts (reader_of doc_empty_certificate defaultOptions) false = Ok JSUndefined
  /\ signingCert (reader_of doc_empty_certificate throwing) true = Throw TypeError.
Proof.
  split.
  - apply (proj2 (certificates_all_or_nothing
                    (reader_of doc_empty_certificate defaultOptions)
                    [ElementNode xmldsig "X509Certificate" [] [TextNode "MIIC"];
                     ElementNode xmldsig "X509Certificate" [] []]
                    (ElementNode xmldsig "X509Certificate" [] []) false
                    ltac:(right; left) eq_refl)).
    vm_compute. reflexivity.
  - apply (proj2 (certificates_all_or_nothing
                    (reader_of doc_empty_certificate throwing)
                    [ElementNode xmldsig "X509Certificate" [] [TextNode "MIIC"];
                     ElementNode xmldsig "X509Certificate" [] []]
                    (ElementNode xmldsig "X509Certificate" [] []) true
                    ltac:(right; left) eq_refl)).
    vm_compute. reflexivity.
Defined.

Lemma strip_spaceless (t : string) : spaceless (strip t).
Proof.
  unfold spaceless, strip. induction t as [| c t IH]; [reflexivity |].
  simpl. rewrite class_rnts_is_space.
  destruct (is_space c) eqn:Hc; [exact IH |].
  simpl. now rewrite Hc, IH.
Qed.

Lemma trimEnd_spaceless (s : string) : spaceless s -> trimEnd s = s.
Proof.
  unfold spaceless. induction s as [| c s IH]; [reflexivity |].
  simpl. destruct (is_space c) eqn:Hc; [discriminate |]. simpl.
  intros Hs. rewrite (IH Hs). now destruct s.
Qed.

Lemma trim_spaceless (s : string) : spaceless s -> trim s = s.
Proof.
  intros Hs. unfold trim.
  assert (Hstart : trimStart s = s).
  { destruct s as [| c s]; [reflexivity |]. unfold spaceless in Hs. simpl in *.
    now destruct (is_space c). }
  rewrite Hstart. now apply trimEnd_spaceless.
Qed.

(** With [trimNewLines] true the single-certificate getters return the
    first entry of the list getters as it is: after all white space is
    deleted, [trim] removes nothing more. *)
Theorem single_certificate_is_first_entry (this : MetadataReader)
    (first : jsval) (rest : list jsval) :
  (encryptionCerts this true = Ok (JSArray (first :: rest)) ->
   encryptionCert this true = Ok first)
  /\ (signingCerts this true = Ok (JSArray (first :: rest)) ->
      signingCert this true = Ok first).
Proof.
  assert (Hfirst : forall q,
             try_catch (found ← query this q;
                        certs ← mapM (certificateText true) found;
                        Ok (JSArray certs)) (rescue this)
             = Ok (JSArray (first :: rest)) ->
             exists t, first = JSString (strip t)).
  { intros q. destruct (query this q) as [found | e]; simpl.
    - destruct (mapM (certificateText true) found) as [certs | e] eqn:Hmap; simpl.
      + intros [= ->]. destruct found as [| n found]; [discriminate |].
        apply mapM_cons_inv in Hmap as (y & ys & [= <- <-] & Hy & _).
        now apply certificateText_stripped with n.
      + unfold rescue. destruct (throwExceptions (options this)); discriminate.
    - unfold rescue. destruct (throwExceptions (options this)); discriminate. }
  split; intros Hlist.
  - destruct (Hfirst q_encryption Hlist) as [t ->].
    unfold encryptionCert, encryptionCert_try. rewrite Hlist. simpl.
    now rewrite (trim_spaceless _ (strip_spaceless t)).
  - destruct (Hfirst q_signing Hlist) as [t ->].
    unfold signingCert, signingCert_try. rewrite Hlist. simpl.
    now rewrite (trim_spaceless _ (strip_spaceless t)).
Qed.

Lemma single_certificate_is_first_entry_witness :
  signingCert (reader_of doc_certificates defaultOptions) true
  = Ok (JSString "MIICQw8=").
Proof.
  apply (proj2 (single_certificate_is_first_entry
                  (reader_of doc_certificates defaultOptions)
                  (JSString "MIICQw8=") [])).
  vm_compute. reflexivity.
Defined.

(** The list getters return one entry for every element the query
    selected; when it selected none they return the empty list, and the
    single-certificate getters fail on reading its first entry. *)
Theorem certificates_one_per_element (this : MetadataReader) (b : bool)
    (certs : list jsval) :
  (encryptionCerts this b = Ok (JSArray certs) ->
   exists found, select this q_encryption = Ok found /\ length certs = length found)
  /\ (signingCerts this b = Ok (JSArray certs) ->
      exists found, select this q_signing = Ok found /\ length certs = length found)
  /\ (select this q_encryption = Ok [] ->
      encryptionCerts this b = Ok (JSArray [])
      /\ encryptionCert this b = rescue this TypeError)
  /\ (select this q_signing = Ok [] ->
      signingCerts this b = Ok (JSArray [])
      /\ signingCert this b = rescue this TypeError).
Proof.
  assert (Hlen : forall q,
             try_catch (found ← query this q;
                        certs ← mapM (certificateText b) found;
                        Ok (JSArray certs)) (rescue this)
             = Ok (JSArray certs) ->
             exists found, select this q = Ok found /\ length certs = length found).
  { intros q. rewrite query_select. destruct (select this q) as [found | e]; simpl.
    - destruct (mapM (certificateText b) found) as [ys | e] eqn:Hmap; simpl.
      + intros [= ->]. exists found. split; [reflexivity |]. now apply mapM_length with (certificateText b).
      + unfold rescue. destruct (throwExceptions (options this)); discriminate.
    - unfold rescue. destruct (throwExceptions (options this)); discriminate. }
  split; [apply Hlen |]. split; [apply Hlen |].
  split; intros Hq.
  - assert (Hlist : encryptionCerts this b = Ok (JSArray [])).
    { unfold encryptionCerts, encryptionCerts_try. now rewrite query_select, Hq. }
    split; [exact Hlist |].
    unfold encryptionCert, encryptionCert_try. now rewrite Hlist.
  - assert (Hlist : signingCerts this b = Ok (JSArray [])).
    { unfold signingCerts, signingCerts_try. now rewrite query_select, Hq. }
    split; [exact Hlist |].
    unfold signingCert, signingCert_try. now rewrite Hlist.
Qed.

Lemma certificates_one_per_element_witness :
  encryptionCerts (reader_of doc_no_service defaultOptions) true = Ok (JSArray [])
  /\ encryptionCert (reader_of doc_no_service throwing) true = Throw TypeError.
Proof.
  split.
  - apply (proj1 (proj2 (proj2 (certificates_one_per_element
                                  (reader_of doc_no_service defaultOptions) true [])))).
    vm_compute. reflexivity.
  - apply (proj1 (proj2 (proj2 (certificates_one_per_element
                                  (reader_of doc_no_service throwing) true [])))).
    vm_compute. reflexivity.
Defined.

(** ** The keys and entries of the claim mapping *)

Lemma own_set_property_Some (m : claims) (key k : string) :
  is_Some (own (set_property m key (mkClaim None None EmptyString)) !! k)
  <-> is_Some (own m !! k) \/ (key = k /\ k <> "__proto__").
Proof.
  unfold set_property. destruct (bool_decide (key = "__proto__")) eqn:Hp; simpl.
  - apply bool_decide_eq_true in Hp. split; [auto |].
    intros [H | [-> H]]; [exact H | contradiction].
  - apply bool_decide_eq_false in Hp. rewrite lookup_insert. case_decide as Hk.
    + subst k. split; [intros _; right; auto | eauto].
    + split; [auto |]. intros [H | [Heq _]]; [exact H | contradiction].
Qed.

Lemma own_set_property_any (m : claims) (key k : string) (c : claim) :
  is_Some (own (set_property m key c) !! k)
  <-> is_Some (own m !! k) \/ (key = k /\ k <> "__proto__").
Proof.
  rewrite <- own_set_property_Some. unfold set_property.
  destruct (bool_decide (key = "__proto__")); simpl; [reflexivity |].
  rewrite !lookup_insert. case_decide; [split; eauto | reflexivity].
Qed.

Lemma foldl_keepClaim_keys unicodeWords this found acc k :
  is_Some (own (foldl (keepClaim unicodeWords this) acc found) !! k)
  <-> is_Some (own acc !! k)
      \/ (k <> "__proto__"
          /\ exists n, n ∈ found /\ claim_key n = k /\ resolves unicodeWords this n).
Proof.
  revert acc. induction found as [| n found IH]; intros acc; simpl.
  - split; [auto |]. intros [H | (_ & n & Hn & _)]; [exact H | inversion Hn].
  - rewrite IH. unfold keepClaim.
    destruct (describe unicodeWords this n) as [c | e] eqn:Hd.
    + rewrite own_set_property_any. split.
      * intros [[H | [Hk Hp]] | (Hp & m & Hm & Hkey & Hres)].
        -- now left.
        -- right. split; [exact Hp |]. exists n. split; [left |]. split; [exact Hk |].
           now exists c.
        -- right. split; [exact Hp |]. exists m. split; [now right | auto].
      * intros [H | (Hp & m & Hm & Hkey & Hres)]; [now left; left |].
        apply elem_of_cons in Hm as [-> | Hm].
        -- left. right. auto.
        -- right. split; [exact Hp |]. exists m. auto.
    + split.
      * intros [H | (Hp & m & Hm & Hkey & Hres)]; [now left |].
        right. split; [exact Hp |]. exists m. split; [now right | auto].
      * intros [H | (Hp & m & Hm & Hkey & Hres)]; [now left |].
        apply elem_of_cons in Hm as [-> | Hm].
        -- destruct Hres as [c Hc]. congruence.
        -- right. split; [exact Hp |]. exists m. auto.
Qed.

(** With [throwExceptions] false, the keys of the mapping are exactly the
    enumerated names whose FriendlyName lookup succeeds, but for the name
    [__proto__], which is never a key. *)
Theorem claimSchema_keys
    (unicodeWords : string -> list string) (this : MetadataReader) (found : list node) :
  throwExceptions (options this) = false ->
  select this q_Name = Ok found ->
  exists m,
    claimSchema unicodeWords this = Ok m
    /\ forall k,
         is_Some (own m !! k)
         <-> k <> "__proto__"
             /\ exists n, n ∈ found /\ claim_key n = k /\ resolves unicodeWords this n.
Proof.
  intros Hopt Hq.
  exists (foldl (keepClaim unicodeWords this) no_claims found). split.
  - unfold claimSchema, claimSchema_try. rewrite query_select, Hq. simpl.
    now rewrite reduce_keepClaim.
  - intros k. rewrite foldl_keepClaim_keys. simpl. rewrite lookup_empty. split.
    + intros [[x Hx] | H]; [discriminate | exact H].
    + auto.
Qed.

Lemma claimSchema_keys_witness :
  exists m,
    claimSchema sample_unicodeWords (reader_of doc_claim_without_name defaultOptions) = Ok m
    /\ forall k,
         is_Some (own m !! k)
         <-> k <> "__proto__"
             /\ exists n,
                  n ∈ [AttrNode (mkAttr "Name" "urn:email");
                       AttrNode (mkAttr "Name" "urn:nickname");
                       AttrNode (mkAttr "Name" "urn:name")]
                  /\ claim_key n = k
                  /\ resolves sample_unicodeWords
                       (reader_of doc_claim_without_name defaultOptions) n.
Proof.
  apply (claimSchema_keys sample_unicodeWords
           (reader_of doc_claim_without_name defaultOptions)).
  - reflexivity.
  - vm_compute. reflexivity.
Defined.

Lemma describe_entry unicodeWords this n c :
  describe unicodeWords this n = Ok c -> entry_of_lookup this (claim_key n) c.
Proof.
  unfold describe, claim_key, entry_of_lookup. rewrite query_select.
  rewrite (q_FriendlyName_ToString (node_value n) (Some (ToString (node_value n))))
    by reflexivity.
  destruct (select this (q_FriendlyName (Some (ToString (node_value n)))))
    as [[| first rest] | e]; simpl; try discriminate.
  intros [= <-]. simpl. eauto.
Qed.

Lemma set_property_entries this m key c :
  (forall k c', own m !! k = Some c' -> entry_of_lookup this k c') ->
  entry_of_lookup this key c ->
  forall k c', own (set_property m key c) !! k = Some c' -> entry_of_lookup this k c'.
Proof.
  intros Hm Hc k c'. unfold set_property.
  destruct (bool_decide (key = "__proto__")); simpl; [apply Hm |].
  rewrite lookup_insert. case_decide as Hk.
  - subst k. now intros [= <-].
  - apply Hm.
Qed.

Lemma reduce_entries unicodeWords this found m m' :
  (forall k c, own m !! k = Some c -> entry_of_lookup this k c) ->
  reduce (addClaim unicodeWords this) found m = Ok m' ->
  forall k c, own m' !! k = Some c -> entry_of_lookup this k c.
Proof.
  revert m. induction found as [| n found IH]; intros m Hm; simpl.
  - now intros [= <-].
  - destruct (describe unicodeWords this n) as [c | e] eqn:Hd.
    + rewrite (addClaim_Ok _ _ _ _ _ Hd). simpl.
      apply IH. apply set_property_entries; [exact Hm |].
      now apply describe_entry with unicodeWords.
    + destruct (throwExceptions (options this)) eqn:Hopt.
      * rewrite (addClaim_rethrow _ _ _ _ _ Hopt Hd). discriminate.
      * rewrite (addClaim_skip _ _ _ _ _ Hopt Hd). simpl. now apply IH.
Qed.

(** Every entry of the mapping is stored under the name it was looked up
    with, and its description is the value of the first node that lookup
    selected, whatever else the lookup selected and whatever
    [throwExceptions] is. *)
Theorem claimSchema_entries
    (unicodeWords : string -> list string) (this : MetadataReader)
    (m : claims) (k : string) (c : claim) :
  claimSchema unicodeWords this = Ok m ->
  own m !! k = Some c ->
  entry_of_lookup this k c.
Proof.
  unfold claimSchema, claimSchema_try.
  destruct (query this q_Name) as [found | e]; simpl.
  - destruct (reduce (addClaim unicodeWords this) found no_claims) as [m1 | e] eqn:Hr;
      simpl.
    + intros [= <-]. apply (reduce_entries unicodeWords this found no_claims m1); [| exact Hr].
      intros k' c'. simpl. rewrite lookup_empty. discriminate.
    + destruct (throwExceptions (options this)); [discriminate |].
      intros [= <-]. simpl. rewrite lookup_empty. discriminate.
  - destruct (throwExceptions (options this)); [discriminate |].
    intros [= <-]. simpl. rewrite lookup_empty. discriminate.
Qed.

Lemma claimSchema_entries_witness :
  entry_of_lookup (reader_of doc_quote_in_name throwing) name_closing_the_literal
    (mkClaim (Some name_closing_the_literal) (Some "Quoted Name") "quotedName").
Proof.
  apply (claimSchema_entries sample_unicodeWords (reader_of doc_quote_in_name throwing)
           {| own := {[ name_closing_the_literal :=
                          mkClaim (Some name_closing_the_literal) (Some "Quoted Name")
                            "quotedName" ]};
              proto := None |}).
  - vm_compute. reflexivity.
  - vm_compute. reflexivity.
Defined.

(** With [throwExceptions] true, a mapping that is returned is complete:
    every enumerated name resolved, and every one of them but [__proto__]
    is a key. *)
Theorem claimSchema_throwing_is_complete
    (unicodeWords : string -> list string) (this : MetadataReader)
    (found : list node) (m : claims) :
  throwExceptions (options this) = true ->
  select this q_Name = Ok found ->
  claimSchema unicodeWords this = Ok m ->
  Forall (resolves unicodeWords this) found
  /\ forall n, n ∈ found -> claim_key n <> "__proto__" -> is_Some (own m !! claim_key n).
Proof.
  intros Hopt Hq. unfold claimSchema, claimSchema_try. rewrite query_select, Hq. simpl.
  rewrite Hopt.
  destruct (reduce (addClaim unicodeWords this) found no_claims) as [m1 | e] eqn:Hr;
    simpl; [| discriminate].
  intros [= <-].
  assert (Hthis : this = configured true this).
  { destruct this as [sel [binding throws]]. simpl in Hopt. subst throws. reflexivity. }
  rewrite Hthis in Hr.
  destruct (reduce_addClaim_throwing _ _ _ _ _ Hr) as [Hsoft Hall].
  split; [exact Hall |].
  intros n Hn Hkey.
  rewrite (reduce_keepClaim unicodeWords (configured false this) found no_claims eq_refl)
    in Hsoft.
  injection Hsoft as <-.
  apply foldl_keepClaim_keys. right. split; [exact Hkey |].
  exists n. split; [exact Hn |]. split; [reflexivity |].
  rewrite Forall_forall in Hall. exact (Hall n Hn).
Qed.

Lemma claimSchema_throwing_is_complete_witness :
  exists m,
    claimSchema sample_unicodeWords (reader_of doc_two_claims throwing) = Ok m
    /\ is_Some (own m !! "urn:email")
    /\ is_Some (own m !! "urn:name").
Proof.
  destruct (claimSchema sample_unicodeWords (reader_of doc_two_claims throwing))
    as [m | e] eqn:Hm; [| vm_compute in Hm; discriminate].
  exists m. split; [reflexivity |].
  pose proof (claimSchema_throwing_is_complete sample_unicodeWords
                (reader_of doc_two_claims throwing)
                [AttrNode (mkAttr "Name" "urn:email"); AttrNode (mkAttr "Name" "urn:name")]
                m eq_refl ltac:(vm_compute; reflexivity) Hm) as [_ Hkeys].
  split.
  - apply (Hkeys (AttrNode (mkAttr "Name" "urn:email"))); [left | discriminate].
  - apply (Hkeys (AttrNode (mkAttr "Name" "urn:name"))); [right; left | discriminate].
Defined.

(** ** Construction *)

Section Construction.

Context {Document : Type}.
Variable parseFromString : string -> result Document.
Variable xpath_select : string -> Document -> result (list node).

(** Construction fails in two cases only, and in both whatever the options
    are, [throwExceptions] included: the metadata is not a string, which is
    an AssertionError raised before the parser is called; or the parser
    throws, and its error is passed on. *)
Theorem construction_failures (metadata : jsval) (options : option overrides)
    (failure : construction_error) :
  new_MetadataReader parseFromString xpath_select metadata options = inl failure
  <-> ((forall text, metadata <> JSString text)
       /\ failure = AssertionError "metadata must be an XML string")
      \/ (exists text e, metadata = JSString text /\ parseFromString text = Throw e
                         /\ failure = ParserError e).
Proof.
  unfold new_MetadataReader. split.
  - destruct metadata as [| | text | l]; try (intros [= <-]; left; split; [discriminate | reflexivity]).
    destruct (parseFromString text) as [doc | e] eqn:Hp; [discriminate |].
    intros [= <-]. right. eauto.
  - intros [[Hns ->] | (text & e & -> & Hp & ->)].
    + destruct metadata as [| | text | l]; try reflexivity.
      now destruct (Hns text).
    + now rewrite Hp.
Qed.

(** A reader constructed from a text that parses runs every query on the
    document parsed from that text; a key left out of the options takes its
    default, HTTP-Redirect and false, and a key that is given is kept; and
    when [throwExceptions] is left out or false, no getter of the reader
    throws. *)
Theorem constructed_reader
    (number_sign : string -> option comparison) (unicodeWords : string -> list string)
    (text : string) (doc : Document) (given : option overrides) :
  parseFromString text = Ok doc ->
  exists this,
    new_MetadataReader parseFromString xpath_select (JSString text) given = inr this
    /\ (forall q, select this q = xpath_select q doc)
    /\ authnRequestBinding (options this)
       = default "HTTP-Redirect" (given ≫= given_authnRequestBinding)
    /\ throwExceptions (options this)
       = default false (given ≫= given_throwExceptions)
    /\ (default false (given ≫= given_throwExceptions) = false ->
        forall g, exists r, call number_sign unicodeWords g this = Ok r).
Proof.
  intros Hp. unfold new_MetadataReader. rewrite Hp. eexists. split; [reflexivity |].
  split; [reflexivity |].
  assert (Hb : authnRequestBinding (merge defaultOptions (default defaultOverrides given))
               = default "HTTP-Redirect" (given ≫= given_authnRequestBinding)).
  { destruct given as [[[b |] t] |]; reflexivity. }
  assert (Ht : throwExceptions (merge defaultOptions (default defaultOverrides given))
               = default false (given ≫= given_throwExceptions)).
  { destruct given as [[b [t |]] |]; reflexivity. }
  split; [exact Hb |]. split; [exact Ht |].
  intros Hsoft g. apply call_soft. cbn [options]. now rewrite Ht.
Qed.

End Construction.

Lemma construction_failures_witness :
  new_MetadataReader sample_parse sample_select JSNull
    (Some (mkOverrides None (Some false)))
  = inl (AssertionError "metadata must be an XML string")
  /\ new_MetadataReader sample_parse sample_select (JSString EmptyString)
       (Some (mkOverrides None (Some false)))
     = inl (ParserError (EngineError "invalid doc source")).
Proof.
  split.
  - apply (proj2 (construction_failures sample_parse sample_select JSNull
                    (Some (mkOverrides None (Some false)))
                    (AssertionError "metadata must be an XML string"))).
    left. split; [discriminate | reflexivity].
  - apply (proj2 (construction_failures sample_parse sample_select (JSString EmptyString)
                    (Some (mkOverrides None (Some false)))
                    (ParserError (EngineError "invalid doc source")))).
    right. exists EmptyString, (EngineError "invalid doc source"). repeat split.
Defined.

Lemma constructed_reader_witness :
  exists this,
    new_MetadataReader sample_parse sample_select (JSString "<EntityDescriptor/>")
      (Some (mkOverrides None (Some true)))
    = inr this
    /\ binding_uri (options this) = redirect
    /\ throwExceptions (options this) = true.
Proof.
  destruct (constructed_reader sample_parse sample_select sample_number_sign
              sample_unicodeWords "<EntityDescriptor/>" doc_two_claims
              (Some (mkOverrides None (Some true))) eq_refl)
    as (this & Hnew & _ & Hb & Ht & _).
  exists this. split; [exact Hnew |]. split; [| exact Ht].
  unfold binding_uri. rewrite Hb. reflexivity.
Defined.
